(** * StudySet: scheduler, learning session, audio cache and pre-cache queue

    A shallow embedding of the core of the StudySet flashcard application
    (spacedRep.js, state.js, storage.js, tts.js and the learn-mode handlers
    of app.js), with the properties its specification states about it.

    Conventions of the embedding.
    - A JavaScript number that the code only ever produces as an integer
      (timestamps, counters, intervals after [Math.round], byte sizes) is a
      [Z]; a number that carries a fraction (the ease factor, the cache
      budget in MB, a draw of [Math.random]) is an exact rational [Q].
      Rounding errors of IEEE doubles are outside the model.
    - [Date.now()] and [Math.random()] are read from the environment: every
      function that calls them takes the reading as an argument ([now], [u]).
      A handler reads the clock once.
    - A value that may be [null] or [undefined] is an [option].
    - A function that can throw returns an [Outcome]; [try]/[catch] is a
      match on it.
    - DOM rendering, analytics counters and timers of the handlers are left
      out; every omission is marked where it occurs. *)

From Stdlib Require Import ZArith QArith Qround Qminmax Lqa OrdersEx.
From stdpp Require Import base option list gmap strings sorting.

Local Open Scope Z_scope.

(** ** JavaScript primitives used by the code *)

Inductive JsError : Type :=
  | TypeError            (* property access on null or undefined *)
  | QuotaExceededError   (* localStorage.setItem beyond the quota *)
  | SyntaxError.         (* JSON.parse of a malformed text *)

Inductive Outcome (A : Type) : Type :=
  | Returned (a : A)
  | Threw (e : JsError).
Arguments Returned {A} a.
Arguments Threw {A} e.

#[global] Instance Outcome_ret : MRet Outcome := fun A a => Returned a.

#[global] Instance Outcome_bind : MBind Outcome := fun A B k o =>
  match o with
  | Returned a => k a
  | Threw e => Threw e
  end.

(** [Math.round]: the nearest integer, a tie going up. *)
Definition Math_round (x : Q) : Z := Qfloor (x + (1 # 2)).

(** [Math.floor]. *)
Definition Math_floor (x : Q) : Z := Qfloor x.

(** [Array.prototype.filter] with a callback that may throw: the elements are
    visited from the left and the first exception ends the call. *)
Fixpoint filterO {A} (p : A -> Outcome bool) (l : list A) : Outcome (list A) :=
  match l with
  | [] => Returned []
  | x :: l' =>
      b ← p x;
      r ← filterO p l';
      mret (if b : bool then x :: r else r)
  end.

(** [Array.prototype.shift]: drop the first element, if there is one. *)
Definition shift {A} (l : list A) : list A := tail l.

(** [arr.splice(start, 0, x)]: insert [x] before position [start]; a negative
    [start] counts from the end, and the position is clamped to the array. *)
Definition splice_insert {A} (start : Z) (x : A) (l : list A) : list A :=
  let len := Z.of_nat (length l) in
  let pos := if start <? 0 then Z.max (len + start) 0 else Z.min start len in
  take (Z.to_nat pos) l ++ x :: drop (Z.to_nat pos) l.

(** A string is falsy when it is empty. *)
Definition falsy (s : string) : bool := String.eqb s String.EmptyString.

(** [s.substring(0, n)]: the first [n] characters, or all of [s] when it is
    shorter. *)
Definition substring0 (n : nat) (s : string) : string := String.substring 0 n s.

(** ** Data model (state.js) *)

Record Stats : Type := mkStats {
  ease : Q;
  interval : Z;
  dueAt : Z;
  repetitions : Z;
  lastReviewed : option Z
}.

Record Meta : Type := mkMeta {
  createdAt : Z;
  updatedAt : Z
}.

Record Card : Type := mkCard {
  uuid : string;
  term : string;
  definition : string;
  starred : bool;
  masteryLevel : Z;
  stats : option Stats;   (* [None]: the card has no [stats] property *)
  meta : Meta
}.

Record StudySet : Type := mkSet {
  set_uuid : string;
  set_name : string;
  cards : list Card;
  set_meta : Meta
}.

Record LearnSession : Type := mkSession {
  version : Z;
  setId : string;
  unseenIds : list string;
  masteredIds : list string;
  currentQuestionId : option string;
  questionsAnswered : Z;
  correctCount : Z;
  mode : string;
  batchHistory : list string;
  startedAt : Z;
  savedAt : Z
}.

Record TtsState : Type := mkTts {
  elevenLabsKey : string;
  autoRead : bool;
  usePremium : bool;
  selectedVoiceId : string;
  cacheSize : Q
}.

(** The global [state] object of state.js, restricted to the parts the core
    reads or writes. *)
Record State : Type := mkState {
  allSets : gmap string StudySet;
  activeSetId : option string;
  learnSession : option LearnSession;
  ttsState : TtsState
}.

(** ** spacedRep.js *)

Module spacedRep.

Definition AGAIN : Z := 1.
Definition HARD : Z := 2.
Definition GOOD : Z := 3.
Definition EASY : Z := 4.

Definition MIN_EASE : Q := 1.3.

Definition FIRST : Z := 1.
Definition SECOND : Z := 6.

(** [calculateSM2(stats, grade)]. Destructuring an absent [stats] throws. *)
Definition calculateSM2 (now : Z) (st : option Stats) (grade : Z)
    : Outcome Stats :=
  match st with
  | None => Threw TypeError
  | Some s =>
      let '(newEase, newInterval, newRepetitions) :=
        if grade =? AGAIN then
          (Qmax MIN_EASE (ease s - 0.2), 1, 0)
        else
          let newRepetitions := repetitions s + 1 in
          let newInterval :=
            if newRepetitions =? 1 then FIRST
            else if newRepetitions =? 2 then SECOND
            else Math_round (inject_Z (interval s) * ease s) in
          if grade =? HARD then
            (Qmax MIN_EASE (ease s - 0.15),
             Z.max 1 (Math_round (inject_Z newInterval * 0.8)),
             newRepetitions)
          else if grade =? GOOD then
            (ease s, newInterval, newRepetitions)
          else if grade =? EASY then
            ((ease s + 0.15)%Q,
             Math_round (inject_Z newInterval * 1.3),
             newRepetitions)
          else
            (ease s, newInterval, newRepetitions)
      in
      Returned {| ease := newEase;
                  interval := newInterval;
                  dueAt := now + newInterval * 24 * 60 * 60 * 1000;
                  repetitions := newRepetitions;
                  lastReviewed := Some now |}
  end.

(** [isCardDue(card)]: [!card.stats || !card.stats.dueAt] holds for a card
    without stats and for a [dueAt] of zero. *)
Definition isCardDue (now : Z) (card : Card) : bool :=
  match stats card with
  | None => true
  | Some s => if dueAt s =? 0 then true else dueAt s <=? now
  end.

(** [getDueCards(cards)]. *)
Definition getDueCards (now : Z) (cs : list Card) : list Card :=
  List.filter (isCardDue now) cs.

(** [getMasteryLevel(stats)]: the tests run in this order and the first that
    holds decides. *)
Definition getMasteryLevel (st : option Stats) : Z :=
  match st with
  | None => 0
  | Some s =>
      if repetitions s =? 0 then 0
      else if repetitions s =? 1 then 1
      else if repetitions s =? 2 then 2
      else if (7 <=? interval s) && Qle_bool 2.0 (ease s) then 3
      else if (21 <=? interval s) && Qle_bool 2.3 (ease s) then 4
      else if (60 <=? interval s) && Qle_bool 2.5 (ease s) then 5
      else Z.min (repetitions s) 3
  end.

(** [getMasteryLabel(level)]: [labels[level] || 'New']. *)
Definition getMasteryLabel (level : Z) : string :=
  if level =? 0 then "New"
  else if level =? 1 then "Learning"
  else if level =? 2 then "Learning"
  else if level =? 3 then "Familiar"
  else if level =? 4 then "Known"
  else if level =? 5 then "Mastered"
  else "New".

(** [a.stats?.dueAt || 0]. *)
Definition dueOrZero (c : Card) : Z :=
  match stats c with
  | Some s => dueAt s
  | None => 0
  end.

(** [Array.prototype.sort] with the comparator [aDue - bDue]: the sort is
    stable, so a card goes in front of the first card of the sorted rest
    that is not due before it. *)
Fixpoint insertByDue (c : Card) (sorted : list Card) : list Card :=
  match sorted with
  | [] => [c]
  | d :: rest =>
      if dueOrZero c <=? dueOrZero d then c :: d :: rest
      else d :: insertByDue c rest
  end.

(** [sortByDueDate(cards)]. *)
Definition sortByDueDate (cs : list Card) : list Card :=
  foldr insertByDue [] cs.

End spacedRep.

(** ** state.js *)

Module state.

(** [createCard(term, definition)], with the identifier drawn by
    [generateUUID] passed in (the texts arrive trimmed). *)
Definition createCard (now : Z) (id tm df : string) : Card :=
  {| uuid := id; term := tm; definition := df;
     starred := false; masteryLevel := 0;
     stats := Some {| ease := 2.5; interval := 1; dueAt := now;
                      repetitions := 0; lastReviewed := None |};
     meta := {| createdAt := now; updatedAt := now |} |}.

(** [createLearnSession(setId, cardIds, mode)]. *)
Definition createLearnSession (now : Z) (sid : string) (cardIds : list string)
    (md : string) : LearnSession :=
  {| version := 1; setId := sid; unseenIds := cardIds; masteredIds := [];
     currentQuestionId := None; questionsAnswered := 0; correctCount := 0;
     mode := md; batchHistory := []; startedAt := now; savedAt := now |}.

(** [getActiveSet()]: an empty identifier is falsy. *)
Definition getActiveSet (st : State) : option StudySet :=
  match activeSetId st with
  | Some sid => if falsy sid then None else allSets st !! sid
  | None => None
  end.

Definition getLearnSession (st : State) : option LearnSession :=
  learnSession st.

Definition setLearnSession (session : option LearnSession) (st : State) : State :=
  {| allSets := allSets st; activeSetId := activeSetId st;
     learnSession := session; ttsState := ttsState st |}.

Definition clearLearnSession (st : State) : State :=
  setLearnSession None st.

Definition getTtsState (st : State) : TtsState := ttsState st.

(** The [updates] argument of [updateCard]: the properties it carries. *)
Record CardUpdates : Type := mkUpdates {
  upd_stats : option Stats;
  upd_masteryLevel : option Z;
  upd_starred : option bool
}.

(** [{ ...card, ...updates, meta: { ...card.meta, updatedAt: now } }]. *)
Definition spreadCard (now : Z) (c : Card) (u : CardUpdates) : Card :=
  {| uuid := uuid c; term := term c; definition := definition c;
     starred := default (starred c) (upd_starred u);
     masteryLevel := default (masteryLevel c) (upd_masteryLevel u);
     stats := match upd_stats u with Some s => Some s | None => stats c end;
     meta := {| createdAt := createdAt (meta c); updatedAt := now |} |}.

(** [Array.prototype.findIndex]. *)
Fixpoint findIndex {A} (p : A -> bool) (l : list A) : option nat :=
  match l with
  | [] => None
  | x :: l' => if p x then Some 0%nat else S <$> findIndex p l'
  end.

(** [updateCard(setId, cardId, updates)]: the new state and the updated
    card, or no change and [null]. *)
Definition updateCard (now : Z) (sid cardId : string) (u : CardUpdates)
    (st : State) : State * option Card :=
  match allSets st !! sid with
  | None => (st, None)
  | Some set =>
      match findIndex (fun c => String.eqb (uuid c) cardId) (cards set) with
      | None => (st, None)
      | Some cardIndex =>
          match cards set !! cardIndex with
          | None => (st, None)
          | Some old =>
              let c' := spreadCard now old u in
              let set' :=
                {| set_uuid := set_uuid set; set_name := set_name set;
                   cards := <[cardIndex := c']> (cards set);
                   set_meta := {| createdAt := createdAt (set_meta set);
                                  updatedAt := now |} |} in
              ({| allSets := <[sid := set']> (allSets st);
                  activeSetId := activeSetId st;
                  learnSession := learnSession st;
                  ttsState := ttsState st |}, Some c')
          end
      end
  end.

(** The property names of [Object.prototype]. [state.allSets] is a plain
    object, and the map [allSets] holds its own keys: a read
    [state.allSets[setId]] with no own key [setId] still finds these names up
    the prototype chain, as a function or, for ["__proto__"], as
    [Object.prototype] itself. *)
Definition Object_prototype : list string :=
  ["constructor"; "__defineGetter__"; "__defineSetter__"; "hasOwnProperty";
   "__lookupGetter__"; "__lookupSetter__"; "isPrototypeOf";
   "propertyIsEnumerable"; "toString"; "valueOf"; "__proto__";
   "toLocaleString"].

(** [getDueCards(setId)]: the callback reads [card.stats.dueAt], which throws
    on a card without stats. An id that names no set gives the empty list,
    unless the read finds an inherited property: that value is truthy and has
    no [cards], so [set.cards.filter] throws. *)
Definition getDueCards (now : Z) (st : State) (sid : string)
    : Outcome (list Card) :=
  match allSets st !! sid with
  | None =>
      if bool_decide (sid ∈ Object_prototype) then Threw TypeError
      else Returned []
  | Some set =>
      filterO (fun card =>
                 match stats card with
                 | None => Threw TypeError
                 | Some s => Returned (dueAt s <=? now)
                 end) (cards set)
  end.

(** [getCard(setId, cardId)]. *)
Definition getCard (st : State) (sid cardId : string) : option Card :=
  match allSets st !! sid with
  | None => None
  | Some set => List.find (fun c => String.eqb (uuid c) cardId) (cards set)
  end.

(** The state with the set under [sid] replaced. *)
Definition putSet (sid : string) (set : StudySet) (st : State) : State :=
  {| allSets := <[sid := set]> (allSets st); activeSetId := activeSetId st;
     learnSession := learnSession st; ttsState := ttsState st |}.

(** What [addCardToSet(setId, card)] does: it returns [null] for an unknown
    set, throws [Error('Maximum 500 cards per set')] for a full one, and
    otherwise pushes the card and returns it. *)
Inductive AddResult : Type :=
  | NoSuchSet
  | MaximumCards
  | Added (st : State) (card : Card).

Definition addCardToSet (now : Z) (sid : string) (card : Card) (st : State)
    : AddResult :=
  match allSets st !! sid with
  | None => NoSuchSet
  | Some set =>
      if 500 <=? Z.of_nat (length (cards set)) then MaximumCards
      else
        Added (putSet sid
                 {| set_uuid := set_uuid set; set_name := set_name set;
                    cards := cards set ++ [card];
                    set_meta := {| createdAt := createdAt (set_meta set);
                                   updatedAt := now |} |} st)
              card
  end.

(** [deleteCard(setId, cardId)]: the state afterwards and whether a card
    went. *)
Definition deleteCard (now : Z) (sid cardId : string) (st : State)
    : State * bool :=
  match allSets st !! sid with
  | None => (st, false)
  | Some set =>
      let initialLength := length (cards set) in
      let cards' :=
        List.filter (fun c => negb (String.eqb (uuid c) cardId)) (cards set) in
      (putSet sid
         {| set_uuid := set_uuid set; set_name := set_name set;
            cards := cards';
            set_meta := {| createdAt := createdAt (set_meta set);
                           updatedAt := now |} |} st,
       (length cards' <? initialLength)%nat)
  end.

(** [toggleCardStar(setId, cardId)]. *)
Definition toggleCardStar (now : Z) (sid cardId : string) (st : State)
    : State * option Card :=
  match getCard st sid cardId with
  | None => (st, None)
  | Some card =>
      updateCard now sid cardId
        {| upd_stats := None; upd_masteryLevel := None;
           upd_starred := Some (negb (starred card)) |} st
  end.

(** [getSet(setId)]. *)
Definition getSet (st : State) (sid : string) : option StudySet :=
  allSets st !! sid.

(** [setActiveSetId(setId)]. *)
Definition setActiveSetId (sid : string) (st : State) : State :=
  {| allSets := allSets st; activeSetId := Some sid;
     learnSession := learnSession st; ttsState := ttsState st |}.

End state.

(** ** storage.js: the learn session in localStorage *)

Module storage.

Definition LEARN_SESSION : string := "studyset_learn_session".

(** A text held by localStorage. The text that [JSON.stringify] gives for a
    session record is identified with the record: the records are made of
    strings, integers, arrays of strings and [null], which [JSON.parse]
    reads back as written. Of the other texts, the model has those on which
    [loadLearnSession] throws, at [JSON.parse] or at [session.savedAt]; a
    text that parses to some other object is not represented. *)
Inductive Text : Type :=
  | SessionJSON (s : LearnSession)
  | Unreadable (t : string).

Definition JSON_stringify (s : LearnSession) : Text := SessionJSON s.

Definition JSON_parse (t : Text) : Outcome LearnSession :=
  match t with
  | SessionJSON s => Returned s
  | Unreadable _ => Threw SyntaxError
  end.

(** [localStorage]: its items, and whether the quota is used up, in which
    case [setItem] throws. *)
Record LocalStorage : Type := mkLS {
  items : gmap string Text;
  quotaExceeded : bool
}.

Definition getItem (k : string) (ls : LocalStorage) : option Text :=
  items ls !! k.

Definition setItem (k : string) (v : Text) (ls : LocalStorage)
    : Outcome LocalStorage :=
  if quotaExceeded ls then Threw QuotaExceededError
  else Returned {| items := <[k := v]> (items ls);
                   quotaExceeded := quotaExceeded ls |}.

Definition removeItem (k : string) (ls : LocalStorage) : LocalStorage :=
  {| items := delete k (items ls); quotaExceeded := quotaExceeded ls |}.

(** [{ ...session, savedAt: Date.now() }]. *)
Definition spreadSavedAt (s : LearnSession) (now : Z) : LearnSession :=
  {| version := version s; setId := setId s; unseenIds := unseenIds s;
     masteredIds := masteredIds s;
     currentQuestionId := currentQuestionId s;
     questionsAnswered := questionsAnswered s;
     correctCount := correctCount s; mode := mode s;
     batchHistory := batchHistory s; startedAt := startedAt s;
     savedAt := now |}.

(** [saveLearnSession(session)]: the result and the storage afterwards. *)
Definition saveLearnSession (now : Z) (session : option LearnSession)
    (ls : LocalStorage) : bool * LocalStorage :=
  let try : Outcome (bool * LocalStorage) :=
    match session with
    | None => Returned (true, removeItem LEARN_SESSION ls)
    | Some s =>
        let data := spreadSavedAt s now in
        ls' ← setItem LEARN_SESSION (JSON_stringify data) ls;
        Returned (true, ls')
    end in
  match try with
  | Returned r => r
  | Threw _ => (false, ls)
  end.

(** [loadLearnSession()]: the result and the storage afterwards. *)
Definition loadLearnSession (now : Z) (ls : LocalStorage)
    : option LearnSession * LocalStorage :=
  let try : Outcome (option LearnSession * LocalStorage) :=
    match getItem LEARN_SESSION ls with
    | None => Returned (None, ls)
    | Some data =>
        session ← JSON_parse data;
        if now - savedAt session >? 7 * 24 * 60 * 60 * 1000
        then Returned (None, removeItem LEARN_SESSION ls)
        else Returned (Some session, ls)
    end in
  match try with
  | Returned r => r
  | Threw _ => (None, ls)
  end.

Definition clearLearnSessionStorage (ls : LocalStorage) : LocalStorage :=
  removeItem LEARN_SESSION ls.

(** *** The audio cache in IndexedDB *)

(** A [Blob] is its bytes; [blob.size] is their number. *)
Definition Blob : Type := list Byte.byte.

Definition blob_size (b : Blob) : N := N.of_nat (length b).

(** A record of the object store [audio], without its key: the store has
    [keyPath: 'key'], so a record is found under its own [key] and the store
    holds one record per key. *)
Record AudioEntry : Type := mkEntry {
  blob : Blob;
  size : N;
  accessedAt : Z
}.

(** [audioDB]: [None] while the database is not open. *)
Definition AudioDB : Type := option (gmap string AudioEntry).

(** The order of the index [accessedAt]: by the indexed value, and records
    with equal values by their primary key. *)
Definition key_leb (k1 k2 : string) : bool :=
  match String_as_OT.compare k1 k2 with
  | Gt => false
  | _ => true
  end.

Definition index_leb (e1 e2 : string * AudioEntry) : bool :=
  (accessedAt e1.2 <? accessedAt e2.2)
  || ((accessedAt e1.2 =? accessedAt e2.2) && key_leb e1.1 e2.1).

Definition index_le (e1 e2 : string * AudioEntry) : Prop :=
  index_leb e1 e2 = true.

#[global] Instance index_le_dec e1 e2 : Decision (index_le e1 e2) :=
  bool_eq_dec (index_leb e1 e2) true.

(** [index.openCursor()]: all records, in the order of the index. *)
Definition openCursor (db : gmap string AudioEntry)
    : list (string * AudioEntry) :=
  merge_sort index_le (map_to_list db).

(** [getCachedAudio(key)]: a hit rewrites the record with a new access
    time. *)
Definition getCachedAudio (now : Z) (k : string) (audioDB : AudioDB)
    : option Blob * AudioDB :=
  match audioDB with
  | None => (None, None)
  | Some db =>
      match db !! k with
      | Some entry =>
          (Some (blob entry),
           Some (<[k := {| blob := blob entry; size := size entry;
                           accessedAt := now |}]> db))
      | None => (None, Some db)
      end
  end.

(** The loop of [evictOldAudioEntries] over the collected [entries]:
    [removed] counts the bytes deleted so far. *)
Fixpoint evictLoop (maxBytes : Q) (totalSize removed : Z)
    (entries : list (string * Z)) (db : gmap string AudioEntry)
    : gmap string AudioEntry :=
  match entries with
  | [] => db
  | entry :: rest =>
      if Qle_bool (inject_Z (totalSize - removed)) (maxBytes * 0.8) then db
      else evictLoop maxBytes totalSize (removed + entry.2) rest
             (delete entry.1 db)
  end.

(** [evictOldAudioEntries(maxSizeMB)]. A stored [size] is a number, for which
    [size || 0] is [size]. *)
Definition evictOldAudioEntries (maxSizeMB : Q) (audioDB : AudioDB) : AudioDB :=
  match audioDB with
  | None => None
  | Some db =>
      let maxBytes := (maxSizeMB * 1024 * 1024)%Q in
      let entries :=
        (fun e : string * AudioEntry => (e.1, Z.of_N (size e.2)))
          <$> openCursor db in
      let totalSize := foldl (fun acc e => acc + e.2) 0 entries in
      if negb (Qle_bool (inject_Z totalSize) maxBytes)
      then Some (evictLoop maxBytes totalSize 0 entries db)
      else Some db
  end.

(** [setCachedAudio(key, blob, maxSizeMB)]; [putOk] tells whether the put
    request succeeds. *)
Definition setCachedAudio (now : Z) (putOk : bool) (k : string) (b : Blob)
    (maxSizeMB : Q) (audioDB : AudioDB) : bool * AudioDB :=
  match audioDB with
  | None => (false, None)
  | Some db =>
      if putOk then
        let db' := <[k := {| blob := b; size := blob_size b;
                             accessedAt := now |}]> db in
        (true, evictOldAudioEntries maxSizeMB (Some db'))
      else (false, Some db)
  end.

Definition clearAudioCache (audioDB : AudioDB) : AudioDB :=
  match audioDB with
  | None => None
  | Some _ => Some ∅
  end.

End storage.

(** ** tts.js: cache keys and the pre-cache queue *)

Module tts.

(** [getCacheKey(text, voiceId)]: the template [`${shortText}-${voiceId}`]. *)
Definition getCacheKey (text voiceId : string) : string :=
  let shortText := substring0 100 text in
  shortText +:+ "-" +:+ voiceId.

(** The module variables [preCacheQueue] and [isPreCaching]. *)
Record ModuleVars : Type := mkModule {
  preCacheQueue : list Card;
  isPreCaching : bool
}.

(** The part of [processPreCacheQueue] that runs before its first [await]:
    the module variables afterwards, and the card whose audio this run goes
    on to fetch ([None] when the run ends at once). *)
Definition processPreCacheQueue (m : ModuleVars) : ModuleVars * option Card :=
  match preCacheQueue m with
  | [] => ({| preCacheQueue := []; isPreCaching := false |}, None)
  | card :: rest => ({| preCacheQueue := rest; isPreCaching := true |}, Some card)
  end.

(** The end of a run of [processPreCacheQueue], once the fetch has settled:
    the module variables, and whether a timer for the next run is set. *)
Definition processPreCacheQueue_end (m : ModuleVars) : ModuleVars * bool :=
  match preCacheQueue m with
  | [] => ({| preCacheQueue := []; isPreCaching := false |}, false)
  | _ :: _ => (m, true)
  end.

(** [preCacheCards(cards)], where an element of [cards] may be [null]: the
    module variables afterwards, and the card of the run it has started
    ([None] when it starts none). *)
Definition preCacheCards (st : State) (cs : list (option Card)) (m : ModuleVars)
    : ModuleVars * option Card :=
  let ttsState := state.getTtsState st in
  if negb (usePremium ttsState) || falsy (elevenLabsKey ttsState)
  then (m, None)
  else
    let m' :=
      {| preCacheQueue :=
           omap (fun c : option Card =>
                   match c with
                   | Some c' => if falsy (term c') then None else Some c'
                   | None => None
                   end) cs;
         isPreCaching := isPreCaching m |} in
    if negb (isPreCaching m') then processPreCacheQueue m'
    else (m', None).

(** [ttsState.cacheSize || 50]. *)
Definition cacheBudget (t : TtsState) : Q :=
  if Qeq_bool (cacheSize t) 0 then 50 else cacheSize t.

(** A whole run of [processPreCacheQueue], from its start to the timer for
    the next run. [fetch] stands for the request to the speech service: the
    clip for a text, or [None] when the request fails or the response is not
    ok (the run catches the failure). The result is the module variables,
    the audio store, and the text that the run has requested, if any. *)
Definition processPreCacheQueue_run (now : Z)
    (fetch : string -> option storage.Blob) (putOk : bool) (st : State)
    (m : ModuleVars) (audioDB : storage.AudioDB)
    : ModuleVars * storage.AudioDB * option string :=
  match processPreCacheQueue m with
  | (m1, None) => (m1, audioDB, None)
  | (m1, Some card) =>
      let ttsState := state.getTtsState st in
      let cacheKey := getCacheKey (term card) (selectedVoiceId ttsState) in
      let (existing, db1) := storage.getCachedAudio now cacheKey audioDB in
      let '(db2, requested) :=
        match existing with
        | Some _ => (db1, None)
        | None =>
            match fetch (term card) with
            | Some blob =>
                ((storage.setCachedAudio now putOk cacheKey blob
                    (cacheBudget ttsState) db1).2,
                 Some (term card))
            | None => (db1, Some (term card))
            end
        end in
      ((processPreCacheQueue_end m1).1, db2, requested)
  end.

(** The runs that follow one another through the timer, as long as nothing
    else touches the module variables: the cards taken, in order, and the
    variables at the end. [fuel] bounds the number of runs. *)
Fixpoint drain (fuel : nat) (m : ModuleVars) : ModuleVars * list Card :=
  match fuel with
  | O => (m, [])
  | S fuel' =>
      match processPreCacheQueue m with
      | (m1, None) => (m1, [])
      | (m1, Some card) =>
          let (m2, timer) := processPreCacheQueue_end m1 in
          if timer : bool then
            let (m3, taken) := drain fuel' m2 in (m3, card :: taken)
          else (m2, [card])
      end
  end.

End tts.

(** ** app.js: the learn-mode handlers *)

Module app.

(** What the handlers read and write: the state object and localStorage.
    Left out: [saveState] (it writes other keys of localStorage and cannot
    throw), the analytics counters, [learnState.batchHistory], rendering
    and timers. *)
Record World : Type := mkWorld {
  st : State;
  localStorage : storage.LocalStorage
}.

(** [Math.floor(Math.random() * 3) + 2], for a draw [u] of [Math.random]. *)
Definition randomOffset (u : Q) : Z := Math_floor (u * 3) + 2.

(** [set.cards.find(c => c.uuid === session.currentQuestionId)]. *)
Definition findCurrent (session : LearnSession) (set : StudySet) : option Card :=
  List.find (fun c => bool_decide (Some (uuid c) = currentQuestionId session))
    (cards set).

(** The session after [questionsAnswered++] and the branch on the answer,
    as both handlers write it out. *)
Definition answered (u : Q) (correct : bool) (card : Card)
    (session : LearnSession) : LearnSession :=
  let questionsAnswered' := questionsAnswered session + 1 in
  if correct then
    {| version := version session; setId := setId session;
       unseenIds := shift (unseenIds session);
       masteredIds := masteredIds session ++ [uuid card];
       currentQuestionId := currentQuestionId session;
       questionsAnswered := questionsAnswered';
       correctCount := correctCount session + 1;
       mode := mode session; batchHistory := batchHistory session;
       startedAt := startedAt session; savedAt := savedAt session |}
  else
    let rest := shift (unseenIds session) in
    let insertIndex := Z.min (Z.of_nat (length rest)) (randomOffset u) in
    {| version := version session; setId := setId session;
       unseenIds := splice_insert insertIndex (uuid card) rest;
       masteredIds := masteredIds session;
       currentQuestionId := currentQuestionId session;
       questionsAnswered := questionsAnswered';
       correctCount := correctCount session;
       mode := mode session; batchHistory := batchHistory session;
       startedAt := startedAt session; savedAt := savedAt session |}.

(** [handleGrade(grade)]. *)
Definition handleGrade (now : Z) (u : Q) (grade : Z) (w : World)
    : Outcome World :=
  match state.getLearnSession (st w), state.getActiveSet (st w) with
  | Some session, Some set =>
      match findCurrent session set with
      | None => Returned w
      | Some card =>
          newStats ← spacedRep.calculateSM2 now (stats card) grade;
          let st1 :=
            (state.updateCard now (set_uuid set) (uuid card)
               {| state.upd_stats := Some newStats;
                  state.upd_masteryLevel := None;
                  state.upd_starred := None |} (st w)).1 in
          let session' := answered u (spacedRep.GOOD <=? grade) card session in
          let st2 := state.setLearnSession (Some session') st1 in
          let ls := (storage.saveLearnSession now (Some session')
                       (localStorage w)).2 in
          Returned {| st := st2; localStorage := ls |}
      end
  | _, _ => Returned w
  end.

(** [handleMultipleChoiceAnswer(isCorrect, selectedBtn, correctId)]; the two
    button arguments only reach the rendering. *)
Definition handleMultipleChoiceAnswer (now : Z) (u : Q) (isCorrect : bool)
    (w : World) : World :=
  match state.getLearnSession (st w), state.getActiveSet (st w) with
  | Some session, Some set =>
      match findCurrent session set with
      | None => w
      | Some card =>
          let level := if isCorrect then masteryLevel card + 1 else 0 in
          let st1 :=
            (state.updateCard now (set_uuid set) (uuid card)
               {| state.upd_stats := None;
                  state.upd_masteryLevel := Some level;
                  state.upd_starred := None |} (st w)).1 in
          let session' := answered u isCorrect card session in
          let st2 := state.setLearnSession (Some session') st1 in
          let ls := (storage.saveLearnSession now (Some session')
                       (localStorage w)).2 in
          {| st := st2; localStorage := ls |}
      end
  | _, _ => w
  end.

(** The loop of [handleBulkImport] over the parsed pairs, each with the
    identifier that [generateUUID] draws for it: [createCard], then
    [addCardToSet] inside [try]/[catch], so a full set swallows the rest. *)
Definition bulkAdd (now : Z) (sid : string)
    (pairs : list (string * string * string)) (s0 : State) : State :=
  foldl (fun s (pair : string * string * string) =>
           let card := state.createCard now pair.1.1 pair.1.2 pair.2 in
           match state.addCardToSet now sid card s with
           | state.Added s' _ => s'
           | state.MaximumCards => s
           | state.NoSuchSet => s
           end) s0 pairs.

(** [[arr[i], arr[j]] = [arr[j], arr[i]]] for two positions of the array.
    (A position outside the array does not arise: [shuffleArray] draws [j]
    between 0 and [i].) *)
Definition swap {A} (i j : nat) (arr : list A) : list A :=
  match arr !! i, arr !! j with
  | Some a, Some b => <[i := b]> (<[j := a]> arr)
  | _, _ => arr
  end.

(** The loop of [shuffleArray] from index [i] down to 1; [us i] is the draw
    of [Math.random] in the round for index [i]. *)
Fixpoint shuffleLoop {A} (i : nat) (us : nat -> Q) (arr : list A) : list A :=
  match i with
  | O => arr
  | S i' =>
      let j := Z.to_nat (Math_floor (us i * inject_Z (Z.of_nat i + 1))) in
      shuffleLoop i' us (swap i j arr)
  end.

(** [shuffleArray(array)] of render.js. *)
Definition shuffleArray {A} (us : nat -> Q) (array : list A) : list A :=
  shuffleLoop (length array - 1) us array.

(** [initializeNewSession(set, mode)]; the alert for too few cards is left
    out. *)
Definition initializeNewSession (now : Z) (us : nat -> Q) (set : StudySet)
    (md : string) : option LearnSession :=
  let cs :=
    if String.eqb md "starred" then List.filter starred (cards set)
    else if String.eqb md "due" then
      List.filter (fun c => spacedRep.isCardDue now c) (cards set)
    else cards set in
  if (length cs <? 2)%nat then None
  else
    let shuffled := shuffleArray us cs in
    Some (state.createLearnSession now (set_uuid set) (uuid <$> shuffled) md).

(** [handleLearnComplete()]; recording the session time and rendering are
    left out. *)
Definition handleLearnComplete (w : World) : World :=
  {| st := state.clearLearnSession (st w);
     localStorage := storage.clearLearnSessionStorage (localStorage w) |}.

(** What [nextQuestion] puts on the screen. *)
Inductive Shown : Type :=
  | ShownNothing
  | ShownSummary
  | ShownCompletion
  | ShownQuestion (cardId : string).

(** [nextQuestion()]. [batchLength] is [learnState.batchHistory.length],
    which lives outside [World]. Auto-read is left out. *)
Definition nextQuestion (now : Z) (batchLength : nat) (w : World)
    : World * Shown :=
  match state.getLearnSession (st w), state.getActiveSet (st w) with
  | Some session, Some set =>
      if (0 <? questionsAnswered session)
         && (Z.rem (questionsAnswered session) 10 =? 0)
         && (0 <? batchLength)%nat
      then (w, ShownSummary)
      else
        match unseenIds session with
        | [] => (handleLearnComplete w, ShownCompletion)
        | first :: _ =>
            let session' :=
              {| version := version session; setId := setId session;
                 unseenIds := unseenIds session;
                 masteredIds := masteredIds session;
                 currentQuestionId := Some first;
                 questionsAnswered := questionsAnswered session;
                 correctCount := correctCount session;
                 mode := mode session; batchHistory := batchHistory session;
                 startedAt := startedAt session; savedAt := savedAt session |} in
            ({| st := state.setLearnSession (Some session') (st w);
                localStorage :=
                  (storage.saveLearnSession now (Some session')
                     (localStorage w)).2 |},
             ShownQuestion first)
        end
  | _, _ => (w, ShownNothing)
  end.

(** [handleContinueLearning()]: the batch history is emptied before
    [nextQuestion] runs. *)
Definition handleContinueLearning (now : Z) (w : World) : World * Shown :=
  nextQuestion now 0 w.

(** From an answer to the next question: the timer of the handler calls
    [nextQuestion] with the answer in the batch history, and the learner
    leaves a batch summary with [handleContinueLearning]. *)
Definition proceed (now : Z) (w : World) : World * Shown :=
  match nextQuestion now 1 w with
  | (w1, ShownSummary) => handleContinueLearning now w1
  | r => r
  end.


(** [navigateToLearnMode(setId, { resume, mode })] up to the point where
    the learn screen is shown: the session it settles on is installed and
    saved. Left out: [learnState] and the callback that asks the first
    question. *)
Definition navigateToLearnMode (now : Z) (us : nat -> Q) (sid : string)
    (resume : bool) (md : string) (w : World) : World :=
  let st1 := state.setActiveSetId sid (st w) in
  match state.getSet st1 sid with
  | None => {| st := st1; localStorage := localStorage w |}
  | Some set =>
      let (savedSession, ls1) :=
        storage.loadLearnSession now (localStorage w) in
      let fresh := initializeNewSession now us set md in
      let other :=
        if resume then
          match state.getLearnSession st1 with
          | Some session =>
              if String.eqb (setId session) sid then Some session else fresh
          | None => fresh
          end
        else fresh in
      let session :=
        match savedSession with
        | Some saved =>
            if String.eqb (setId saved) sid
               && (0 <? length (unseenIds saved))%nat
            then Some saved
            else other
        | None => other
        end in
      match session with
      | None => {| st := st1; localStorage := ls1 |}
      | Some session' =>
          {| st := state.setLearnSession (Some session') st1;
             localStorage :=
               (storage.saveLearnSession now (Some session') ls1).2 |}
      end
  end.

(** [handleExitLearn()], as far as the session goes: an unfinished session
    is saved, a finished or absent one is cleared. Left out: the session
    time, stopping the speech and the navigation back to the set. *)
Definition handleExitLearn (now : Z) (w : World) : World :=
  match state.getLearnSession (st w) with
  | Some session =>
      if (0 <? length (unseenIds session))%nat then
        {| st := st w;
           localStorage :=
             (storage.saveLearnSession now (Some session) (localStorage w)).2 |}
      else handleLearnComplete w
  | None => handleLearnComplete w
  end.

End app.

(** ** Sample data *)

Module samples.

(** The stats of a card as [createCard] leaves them. *)
Definition freshStats : Stats :=
  {| ease := 2.5; interval := 1; dueAt := 1000; repetitions := 0;
     lastReviewed := None |}.

(** The stats that [createCard] gives at time [t]. *)
Definition statsAt (t : Z) : Stats :=
  {| ease := 2.5; interval := 1; dueAt := t; repetitions := 0;
     lastReviewed := None |}.

(** The stats of a card after several successful reviews. *)
Definition matureStats : Stats :=
  {| ease := 2.5; interval := 15; dueAt := 1000; repetitions := 3;
     lastReviewed := Some 500 |}.

Definition card1 : Card := state.createCard 1000 "c1" "uno" "one".
Definition card2 : Card := state.createCard 1000 "c2" "dos" "two".
Definition card3 : Card := state.createCard 1000 "c3" "tres" "three".
Definition card4 : Card := state.createCard 1000 "c4" "cuatro" "four".

(** A card that carries no [stats] property. *)
Definition bareCard : Card :=
  {| uuid := "c0"; term := "cero"; definition := "zero"; starred := false;
     masteryLevel := 0; stats := None;
     meta := {| createdAt := 1000; updatedAt := 1000 |} |}.

Definition premium : TtsState :=
  {| elevenLabsKey := "sk-0123456789ab"; autoRead := false;
     usePremium := true; selectedVoiceId := "v1"; cacheSize := 50 |}.

Definition setOf (cs : list Card) : StudySet :=
  {| set_uuid := "s1"; set_name := "numeros"; cards := cs;
     set_meta := {| createdAt := 1000; updatedAt := 1000 |} |}.

Definition stateOf (cs : list Card) (session : option LearnSession) : State :=
  {| allSets := {[ "s1" := setOf cs ]}; activeSetId := Some "s1";
     learnSession := session; ttsState := premium |}.

Definition session1 : LearnSession :=
  {| version := 1; setId := "s1"; unseenIds := ["c1"; "c2"; "c3"];
     masteredIds := []; currentQuestionId := Some "c1";
     questionsAnswered := 0; correctCount := 0; mode := "all";
     batchHistory := []; startedAt := 1000; savedAt := 1000 |}.

Definition emptyStorage : storage.LocalStorage :=
  {| storage.items := ∅; storage.quotaExceeded := false |}.

Definition day : Z := 24 * 60 * 60 * 1000.

(** ["a".repeat(n)]. *)
Fixpoint repeatA (n : nat) : string :=
  match n with
  | O => String.EmptyString
  | S n' => String.String (Ascii.ascii_of_nat 97) (repeatA n')
  end.

(** Four bytes of audio. *)
Definition clip : storage.Blob := [Byte.x00; Byte.x01; Byte.x02; Byte.x03].

Definition entryAt (t : Z) : storage.AudioEntry :=
  {| storage.blob := clip; storage.size := 4; storage.accessedAt := t |}.

(** A cache of three clips, read last at 30, 10 and 20. *)
Definition cache3 : gmap string storage.AudioEntry :=
  {[ "uno-v1" := entryAt 30; "dos-v1" := entryAt 10; "tres-v1" := entryAt 20 ]}.

(** A budget of ten bytes, in MB. *)
Definition tenBytes : Q := 10 # 1048576.

(** A speech service that knows one text. *)
Definition fetchCuatro (text : string) : option storage.Blob :=
  if String.eqb text "cuatro" then Some clip else None.

Definition world1 : app.World :=
  {| app.st := stateOf [card1; card2; card3] (Some session1);
     app.localStorage := emptyStorage |}.

End samples.

(** ** Vocabulary of the properties *)

(** The bytes that a list of cache records accounts for, and the bytes held
    by a store. *)
Definition bytesOf (l : list (string * storage.AudioEntry)) : Z :=
  foldr (fun e acc => Z.of_N (storage.size e.2) + acc) 0 l.

Definition storedBytes (db : gmap string storage.AudioEntry) : Z :=
  bytesOf (map_to_list db).

(** The [entries] array that [evictOldAudioEntries] collects from a cursor. *)
Definition sized (es : list (string * storage.AudioEntry)) : list (string * Z) :=
  (fun e : string * storage.AudioEntry => (e.1, Z.of_N (storage.size e.2))) <$> es.

(** The store after [store.delete(entry.key)] for each record of [ev]. *)
Definition deleteAll (ev : list (string * storage.AudioEntry))
    (db : gmap string storage.AudioEntry) : gmap string storage.AudioEntry :=
  foldl (fun d (e : string * storage.AudioEntry) => delete e.1 d) db ev.

(** The queue and the counters of the session [s'] that a failing answer to
    [card] leaves, where [card] stood at the front of the queue before [rest]
    and [u] is the draw of [Math.random]. *)
Definition requeued (u : Q) (card : Card) (rest : list string)
    (session s' : LearnSession) : Prop :=
  let i := Z.to_nat (Z.min (Z.of_nat (length rest)) (app.randomOffset u)) in
  2 <= app.randomOffset u <= 4
  ∧ unseenIds s' = take i rest ++ uuid card :: drop i rest
  ∧ unseenIds s' !! i = Some (uuid card)
  ∧ (i <= 4)%nat
  ∧ (2 <= length rest → 2 <= i)%nat
  ∧ masteredIds s' = masteredIds session
  ∧ questionsAnswered s' = questionsAnswered session + 1.

(** The fields of a card other than its [meta] time stamps. *)
Definition cardContent (c : Card)
    : string * string * string * bool * Z * option Stats :=
  (uuid c, term c, definition c, starred c, masteryLevel c, stats c).

(** Whether a card belongs to a study mode: starred cards for ['starred'],
    due cards for ['due'], every card otherwise. *)
Definition inMode (now : Z) (md : string) (c : Card) : bool :=
  if String.eqb md "starred" then starred c
  else if String.eqb md "due" then spacedRep.isCardDue now c
  else true.

(** What every answer keeps of a session: one more question answered, the
    same cards split between the queue and the mastered ones, and the two
    counters in step with them. *)
Definition progressKept (session s' : LearnSession) : Prop :=
  questionsAnswered s' = questionsAnswered session + 1
  ∧ unseenIds s' ++ masteredIds s' ≡ₚ unseenIds session ++ masteredIds session
  ∧ (correctCount session = Z.of_nat (length (masteredIds session)) →
     correctCount s' = Z.of_nat (length (masteredIds s')))
  ∧ (correctCount session <= questionsAnswered session →
     correctCount s' <= questionsAnswered s')
  ∧ setId s' = setId session ∧ mode s' = mode session
  ∧ startedAt s' = startedAt session.

(** The session [s'] after a correct answer to [card], which stood at the
    front of the queue before [rest]. *)
Definition retired (card : Card) (rest : list string)
    (session s' : LearnSession) : Prop :=
  unseenIds s' = rest
  ∧ masteredIds s' = masteredIds session ++ [uuid card]
  ∧ correctCount s' = correctCount session + 1
  ∧ questionsAnswered s' = questionsAnswered session + 1
  ∧ (uuid card ∉ rest → uuid card ∉ unseenIds s').

(** The session with [first] as its current question. *)
Definition asking (first : string) (session : LearnSession) : LearnSession :=
  {| version := version session; setId := setId session;
     unseenIds := unseenIds session; masteredIds := masteredIds session;
     currentQuestionId := Some first;
     questionsAnswered := questionsAnswered session;
     correctCount := correctCount session; mode := mode session;
     batchHistory := batchHistory session; startedAt := startedAt session;
     savedAt := savedAt session |}.

(** * Properties *)

(** ** The scheduler *)

Section scheduler.
Import spacedRep.

Lemma calculateSM2_returns (now : Z) (s : Stats) (grade : Z) :
  ∃ r, calculateSM2 now (Some s) grade = Returned r.
Proof.
  unfold calculateSM2.
  repeat match goal with |- context [if ?b then _ else _] => destruct b end;
    eexists; reflexivity.
Qed.

Lemma calculateSM2_ease (now : Z) (s r : Stats) (grade : Z) :
  calculateSM2 now (Some s) grade = Returned r →
  ease r =
    if grade =? AGAIN then Qmax MIN_EASE (ease s - 0.2)
    else if grade =? HARD then Qmax MIN_EASE (ease s - 0.15)
    else if grade =? EASY then (ease s + 0.15)%Q
    else ease s.
Proof.
  unfold calculateSM2, AGAIN, HARD, GOOD, EASY. intros H.
  destruct (Z.eqb_spec grade 1) as [E1|E1]; [by inversion H|].
  destruct (Z.eqb_spec grade 2) as [E2|E2]; [by inversion H|].
  destruct (Z.eqb_spec grade 3) as [E3|E3].
  { destruct (Z.eqb_spec grade 4); [lia|]. by inversion H. }
  destruct (Z.eqb_spec grade 4); by inversion H.
Qed.

End scheduler.

(** C1: for stats whose ease is at least 1.3 and a grade among Again (1),
    Hard (2), Good (3) and Easy (4), [calculateSM2] returns stats whose ease
    is at least 1.3. *)
Theorem calculateSM2_ease_floor (now : Z) (s : Stats) (grade : Z) :
  (1.3 <= ease s)%Q →
  1 <= grade <= 4 →
  ∃ r, spacedRep.calculateSM2 now (Some s) grade = Returned r
       ∧ (1.3 <= ease r)%Q.
Proof.
  intros Hease _.
  destruct (calculateSM2_returns now s grade) as [r Hr].
  exists r. split; [done|].
  rewrite (calculateSM2_ease _ _ _ _ Hr).
  repeat case_match; try apply Q.le_max_l; [lra | done].
Qed.

Lemma calculateSM2_ease_floor_witness :
  (1.3 <= ease samples.freshStats)%Q ∧ 1 <= 2 <= 4
  ∧ ∃ r, spacedRep.calculateSM2 5000 (Some samples.freshStats) 2 = Returned r
         ∧ (1.3 <= ease r)%Q.
Proof.
  assert (H1 : (1.3 <= ease samples.freshStats)%Q) by (vm_compute; discriminate).
  assert (H2 : 1 <= 2 <= 4) by lia.
  split; [exact H1|]. split; [exact H2|].
  exact (calculateSM2_ease_floor 5000 samples.freshStats 2 H1 H2).
Defined.

(** C2, as the code has it: a grade outside 1..4 raises no error.
    [calculateSM2] takes the successful-recall branch without any grade
    adjustment, so the result is the one for Good: the ease is unchanged and
    the repetitions go up by one. *)
Theorem calculateSM2_unknown_grade (now : Z) (s : Stats) (grade : Z) :
  ¬ (1 <= grade <= 4) →
  spacedRep.calculateSM2 now (Some s) grade
    = spacedRep.calculateSM2 now (Some s) spacedRep.GOOD
  ∧ ∃ r, spacedRep.calculateSM2 now (Some s) grade = Returned r
         ∧ ease r = ease s ∧ repetitions r = repetitions s + 1.
Proof.
  intros Hg. unfold spacedRep.calculateSM2, spacedRep.AGAIN, spacedRep.HARD,
    spacedRep.GOOD, spacedRep.EASY.
  destruct (Z.eqb_spec grade 1); [lia|].
  destruct (Z.eqb_spec grade 2); [lia|].
  destruct (Z.eqb_spec grade 3); [lia|].
  destruct (Z.eqb_spec grade 4); [lia|].
  simpl. split; [done|]. eexists. split; [done|]. done.
Qed.

Lemma calculateSM2_unknown_grade_witness :
  ¬ (1 <= 5 <= 4)
  ∧ spacedRep.calculateSM2 5000 (Some samples.freshStats) 5
      = spacedRep.calculateSM2 5000 (Some samples.freshStats) spacedRep.GOOD
  ∧ ∃ r, spacedRep.calculateSM2 5000 (Some samples.freshStats) 5 = Returned r
         ∧ ease r = ease samples.freshStats
         ∧ repetitions r = repetitions samples.freshStats + 1.
Proof.
  assert (H : ¬ (1 <= 5 <= 4)) by lia.
  split; [exact H|].
  exact (calculateSM2_unknown_grade 5000 samples.freshStats 5 H).
Defined.

(** C2 as stated fails: with the grade 5, [calculateSM2] returns stats and
    throws nothing. *)
Lemma calculateSM2_grade_5_no_error :
  spacedRep.calculateSM2 5000 (Some samples.freshStats) 5
    = Returned {| ease := 2.5; interval := 1; dueAt := 5000 + 86400000;
                  repetitions := 1; lastReviewed := Some 5000 |}
  ∧ ¬ ∃ e, spacedRep.calculateSM2 5000 (Some samples.freshStats) 5 = Threw e.
Proof.
  split; [reflexivity|]. intros [e He]. discriminate He.
Qed.

(** ** Due queries *)

(** [isCardDue] on its own: from a clock reading that is not negative, a card
    is due exactly when it has no stats or its [dueAt] is not after [now]. *)
Lemma isCardDue_iff (now : Z) (card : Card) :
  0 <= now →
  spacedRep.isCardDue now card = true
  ↔ stats card = None ∨ ∃ s, stats card = Some s ∧ dueAt s <= now.
Proof.
  intros Hnow. unfold spacedRep.isCardDue.
  destruct (stats card) as [s|]; [|split; [by left|done]].
  destruct (Z.eqb_spec (dueAt s) 0) as [E|E].
  - split; [|done]. intros _. right. exists s. split; [done|lia].
  - rewrite Z.leb_le. split.
    + intros H. right. by exists s.
    + intros [H|(s' & Hs & H)]; [done|]. by simplify_eq.
Qed.

Lemma getDueCards_elem (now : Z) (cs : list Card) (card : Card) :
  card ∈ spacedRep.getDueCards now cs
  ↔ card ∈ cs ∧ spacedRep.isCardDue now card = true.
Proof.
  unfold spacedRep.getDueCards.
  rewrite !list_elem_of_In, filter_In. done.
Qed.

(** The filter of state.js agrees with [dueAt <= now] as long as every card of
    the set carries stats. *)
Lemma state_getDueCards_with_stats (now : Z) (st : State) (sid : string)
    (set : StudySet) :
  allSets st !! sid = Some set →
  Forall (fun c => is_Some (stats c)) (cards set) →
  state.getDueCards now st sid
    = Returned (List.filter
                  (fun c => match stats c with
                            | Some s => dueAt s <=? now
                            | None => false
                            end) (cards set)).
Proof.
  intros Hset Hall. unfold state.getDueCards. rewrite Hset.
  induction Hall as [|c cs [s Hs] _ IH]; [done|].
  cbn [filterO List.filter]. rewrite Hs, IH. cbn.
  by destruct (dueAt s <=? now).
Qed.

(** C7 at a card without stats: [isCardDue] and the array filter of
    spacedRep.js report the card as due, while [getDueCards] of state.js
    throws a [TypeError] for the set that holds it. *)
Theorem getDueCards_throws_without_stats :
  spacedRep.isCardDue 5000 samples.bareCard = true
  ∧ spacedRep.getDueCards 5000 [samples.bareCard] = [samples.bareCard]
  ∧ state.getDueCards 5000 (samples.stateOf [samples.bareCard] None) "s1"
    = Threw TypeError.
Proof. repeat split; vm_compute; reflexivity. Qed.

(** ** Cache keys *)

(** C9, as the code has it: two texts that agree on their first 100
    characters get the same key for a voice, and the key is those characters,
    a hyphen, and the voice identifier. *)
Theorem getCacheKey_prefix (text1 text2 voiceId : string) :
  substring0 100 text1 = substring0 100 text2 →
  tts.getCacheKey text1 voiceId = tts.getCacheKey text2 voiceId
  ∧ tts.getCacheKey text1 voiceId
    = substring0 100 text1 +:+ "-" +:+ voiceId.
Proof.
  intros H. unfold tts.getCacheKey. cbn zeta. by rewrite H.
Qed.

Lemma getCacheKey_prefix_witness :
  substring0 100 (samples.repeatA 150 +:+ "X")
    = substring0 100 (samples.repeatA 150 +:+ "Y")
  ∧ tts.getCacheKey (samples.repeatA 150 +:+ "X") "v1"
    = tts.getCacheKey (samples.repeatA 150 +:+ "Y") "v1"
  ∧ tts.getCacheKey (samples.repeatA 150 +:+ "X") "v1"
    = substring0 100 (samples.repeatA 150 +:+ "X") +:+ "-" +:+ "v1".
Proof.
  assert (H : substring0 100 (samples.repeatA 150 +:+ "X")
              = substring0 100 (samples.repeatA 150 +:+ "Y"))
    by (vm_compute; reflexivity).
  split; [exact H|].
  exact (getCacheKey_prefix _ _ "v1" H).
Defined.

(** C9 as stated fails in its last part: the key is not the truncated text
    followed directly by the voice identifier. *)
Lemma getCacheKey_has_separator :
  tts.getCacheKey "a" "v1" = "a-v1"
  ∧ tts.getCacheKey "a" "v1" ≠ substring0 100 "a" +:+ "v1".
Proof. split; [reflexivity|]. vm_compute. discriminate. Qed.

(** ** The pre-cache queue *)

(** While a run is in progress, [preCacheCards] starts no other run. *)
Lemma preCacheCards_single_drain (st : State) (cs : list (option Card))
    (m : tts.ModuleVars) :
  tts.isPreCaching m = true →
  (tts.preCacheCards st cs m).2 = None
  ∧ tts.isPreCaching (tts.preCacheCards st cs m).1 = true.
Proof.
  intros H. unfold tts.preCacheCards.
  destruct (_ || _); [done|]. cbn. by rewrite H.
Qed.

(** C5 at a run in progress with one card pending: [preCacheCards] with a new
    candidate starts no second run, but the queue afterwards holds the new
    candidate alone; the pending card is gone from it. *)
Theorem preCacheCards_replaces_pending :
  let m := {| tts.preCacheQueue := [samples.card1];
              tts.isPreCaching := true |} in
  let r := tts.preCacheCards (samples.stateOf [] None)
             [Some samples.card2] m in
  r.2 = None
  ∧ tts.preCacheQueue r.1 = [samples.card2]
  ∧ tts.preCacheQueue r.1 ≠ [samples.card1; samples.card2]
  ∧ samples.card1 ∉ tts.preCacheQueue r.1.
Proof.
  cbv zeta. repeat split; try (vm_compute; reflexivity).
  - vm_compute. discriminate.
  - vm_compute. intros H. apply list_elem_of_In in H. simpl in H.
    destruct H as [H|[]]. discriminate H.
Qed.

(** ** The persisted learn session *)

Section session_storage.
Import storage.

Lemma getItem_removeItem (k : string) (ls : LocalStorage) :
  getItem k (removeItem k ls) = None.
Proof. unfold getItem, removeItem. cbn. apply lookup_delete_eq. Qed.

Lemma loadLearnSession_absent (now : Z) (ls : LocalStorage) :
  getItem LEARN_SESSION ls = None →
  loadLearnSession now ls = (None, ls).
Proof. intros H. unfold loadLearnSession. by rewrite H. Qed.

Lemma saveLearnSession_stores (now : Z) (s : LearnSession) (ls : LocalStorage) :
  quotaExceeded ls = false →
  saveLearnSession now (Some s) ls
    = (true, {| items := <[LEARN_SESSION := SessionJSON (spreadSavedAt s now)]>
                           (items ls);
                quotaExceeded := false |}).
Proof.
  intros Hq. unfold saveLearnSession, setItem, JSON_stringify.
  rewrite Hq. reflexivity.
Qed.

(** A full quota makes the save report failure and leave the storage as it
    was. *)
Lemma saveLearnSession_quota (now : Z) (s : LearnSession) (ls : LocalStorage) :
  quotaExceeded ls = true →
  saveLearnSession now (Some s) ls = (false, ls).
Proof.
  intros Hq. unfold saveLearnSession, setItem. rewrite Hq. reflexivity.
Qed.

Lemma loadLearnSession_stale (now : Z) (s : LearnSession) (ls : LocalStorage) :
  getItem LEARN_SESSION ls = Some (JSON_stringify s) →
  now - savedAt s > 7 * 24 * 60 * 60 * 1000 →
  loadLearnSession now ls = (None, removeItem LEARN_SESSION ls).
Proof.
  intros Hget Hold. unfold loadLearnSession. rewrite Hget.
  cbn -[Z.gtb Z.mul Z.sub].
  by destruct (Z.gtb_spec (now - savedAt s) (7 * 24 * 60 * 60 * 1000)); [|lia].
Qed.

Lemma loadLearnSession_recent (now : Z) (s : LearnSession) (ls : LocalStorage) :
  getItem LEARN_SESSION ls = Some (JSON_stringify s) →
  now - savedAt s <= 7 * 24 * 60 * 60 * 1000 →
  loadLearnSession now ls = (Some s, ls).
Proof.
  intros Hget Hnew. unfold loadLearnSession. rewrite Hget.
  cbn -[Z.gtb Z.mul Z.sub].
  by destruct (Z.gtb_spec (now - savedAt s) (7 * 24 * 60 * 60 * 1000)); [lia|].
Qed.

End session_storage.

(** C10: [saveLearnSession] with a null session removes the persisted session
    and returns [true], whatever the storage held; a load that follows finds
    nothing. *)
Theorem saveLearnSession_null_clears (now now' : Z) (ls : storage.LocalStorage) :
  storage.saveLearnSession now None ls
    = (true, storage.removeItem storage.LEARN_SESSION ls)
  ∧ storage.getItem storage.LEARN_SESSION
      (storage.saveLearnSession now None ls).2 = None
  ∧ (storage.loadLearnSession now' (storage.saveLearnSession now None ls).2).1
    = None.
Proof.
  split; [reflexivity|]. cbn [storage.saveLearnSession snd].
  split; [apply getItem_removeItem|].
  rewrite loadLearnSession_absent; [done|apply getItem_removeItem].
Qed.

(** C8: a persisted session whose [savedAt] lies more than 7 days before the
    load is removed from the storage and reported as absent; one that is at
    most 7 days old is returned as it was stored, and the storage is left
    alone. *)
Theorem loadLearnSession_expiry (now : Z) (s : LearnSession)
    (ls : storage.LocalStorage) :
  storage.getItem storage.LEARN_SESSION ls = Some (storage.JSON_stringify s) →
  (now - savedAt s > 7 * 24 * 60 * 60 * 1000 →
     storage.loadLearnSession now ls
       = (None, storage.removeItem storage.LEARN_SESSION ls))
  ∧ (now - savedAt s <= 7 * 24 * 60 * 60 * 1000 →
     storage.loadLearnSession now ls = (Some s, ls)).
Proof.
  intros Hget. split.
  - by apply loadLearnSession_stale.
  - by apply loadLearnSession_recent.
Qed.

Lemma loadLearnSession_expiry_witness :
  let ls := (storage.saveLearnSession 1000 (Some samples.session1)
               samples.emptyStorage).2 in
  let stored := storage.spreadSavedAt samples.session1 1000 in
  storage.getItem storage.LEARN_SESSION ls
    = Some (storage.JSON_stringify stored)
  ∧ (1000 + 8 * samples.day) - savedAt stored > 7 * 24 * 60 * 60 * 1000
  ∧ storage.loadLearnSession (1000 + 8 * samples.day) ls
    = (None, storage.removeItem storage.LEARN_SESSION ls)
  ∧ (1000 + 6 * samples.day) - savedAt stored <= 7 * 24 * 60 * 60 * 1000
  ∧ storage.loadLearnSession (1000 + 6 * samples.day) ls = (Some stored, ls).
Proof.
  cbv zeta.
  set (ls := (storage.saveLearnSession 1000 (Some samples.session1)
                samples.emptyStorage).2).
  set (stored := storage.spreadSavedAt samples.session1 1000).
  assert (Hget : storage.getItem storage.LEARN_SESSION ls
                 = Some (storage.JSON_stringify stored))
    by (vm_compute; reflexivity).
  assert (H8 : (1000 + 8 * samples.day) - savedAt stored
               > 7 * 24 * 60 * 60 * 1000)
    by (vm_compute; reflexivity).
  assert (H6 : (1000 + 6 * samples.day) - savedAt stored
               <= 7 * 24 * 60 * 60 * 1000)
    by (vm_compute; discriminate).
  split; [exact Hget|]. split; [exact H8|].
  split; [exact (proj1 (loadLearnSession_expiry _ stored ls Hget) H8)|].
  split; [exact H6|].
  exact (proj2 (loadLearnSession_expiry _ stored ls Hget) H6).
Defined.

(** C6, as the code has it: when the write succeeds and the load comes at most
    7 days after the save, the loaded session has every field of the saved
    one except [savedAt], which holds the time of the save. *)
Theorem save_load_roundtrip (t t' : Z) (s : LearnSession)
    (ls : storage.LocalStorage) :
  storage.quotaExceeded ls = false →
  t' - t <= 7 * 24 * 60 * 60 * 1000 →
  let saved := storage.saveLearnSession t (Some s) ls in
  saved.1 = true
  ∧ ∃ s', (storage.loadLearnSession t' saved.2).1 = Some s'
      ∧ version s' = version s ∧ setId s' = setId s
      ∧ unseenIds s' = unseenIds s ∧ masteredIds s' = masteredIds s
      ∧ currentQuestionId s' = currentQuestionId s
      ∧ questionsAnswered s' = questionsAnswered s
      ∧ correctCount s' = correctCount s ∧ mode s' = mode s
      ∧ batchHistory s' = batchHistory s ∧ startedAt s' = startedAt s
      ∧ savedAt s' = t.
Proof.
  intros Hq Hage. cbv zeta. rewrite (saveLearnSession_stores _ _ _ Hq).
  cbn [fst snd]. split; [done|].
  exists (storage.spreadSavedAt s t).
  split; [|by repeat split].
  match goal with |- (storage.loadLearnSession _ ?l).1 = _ => set (ls' := l) end.
  assert (Hget : storage.getItem storage.LEARN_SESSION ls'
                 = Some (storage.JSON_stringify (storage.spreadSavedAt s t))).
  { unfold storage.getItem, ls'. cbn. apply lookup_insert_eq. }
  by rewrite (loadLearnSession_recent t' _ ls' Hget Hage).
Qed.

Lemma save_load_roundtrip_witness :
  let s := samples.session1 in
  let saved := storage.saveLearnSession 2000 (Some s) samples.emptyStorage in
  storage.quotaExceeded samples.emptyStorage = false
  ∧ 3000 - 2000 <= 7 * 24 * 60 * 60 * 1000
  ∧ saved.1 = true
  ∧ ∃ s', (storage.loadLearnSession 3000 saved.2).1 = Some s'
      ∧ version s' = version s ∧ setId s' = setId s
      ∧ unseenIds s' = unseenIds s ∧ masteredIds s' = masteredIds s
      ∧ currentQuestionId s' = currentQuestionId s
      ∧ questionsAnswered s' = questionsAnswered s
      ∧ correctCount s' = correctCount s ∧ mode s' = mode s
      ∧ batchHistory s' = batchHistory s ∧ startedAt s' = startedAt s
      ∧ savedAt s' = 2000.
Proof.
  assert (Hq : storage.quotaExceeded samples.emptyStorage = false)
    by reflexivity.
  assert (Hage : 3000 - 2000 <= 7 * 24 * 60 * 60 * 1000)
    by (vm_compute; discriminate).
  cbv zeta. split; [exact Hq|]. split; [exact Hage|].
  exact (save_load_roundtrip 2000 3000 samples.session1 samples.emptyStorage
           Hq Hage).
Defined.

(** C6 as stated fails on [savedAt]: a session created at 1000, saved at 2000
    and loaded at 3000 comes back with [savedAt] 2000. *)
Lemma save_load_changes_savedAt :
  let s := samples.session1 in
  let saved := storage.saveLearnSession 2000 (Some s) samples.emptyStorage in
  (storage.loadLearnSession 3000 saved.2).1
    = Some (storage.spreadSavedAt s 2000)
  ∧ (storage.loadLearnSession 3000 saved.2).1 ≠ Some s
  ∧ savedAt s = 1000.
Proof.
  cbv zeta. split; [vm_compute; reflexivity|].
  split; [|reflexivity]. vm_compute. discriminate.
Qed.


(** ** Answers in a learn session *)

Section answers.
Import app.

Lemma randomOffset_range (u : Q) :
  (0 <= u)%Q → (u < 1)%Q → 2 <= randomOffset u <= 4.
Proof.
  intros H0 H1. unfold randomOffset, Math_floor.
  assert (Hlo : Qfloor 0 <= Qfloor (u * 3)) by (apply Qfloor_resp_le; lra).
  assert (Hhi : (inject_Z (Qfloor (u * 3)) < inject_Z 3)%Q).
  { eapply Qle_lt_trans; [apply Qfloor_le|]. change (inject_Z 3) with 3%Q. lra. }
  rewrite <- Zlt_Qlt in Hhi. change (Qfloor 0) with 0 in Hlo. lia.
Qed.

Lemma splice_insert_within {A} (i : nat) (x : A) (l : list A) :
  (i <= length l)%nat →
  splice_insert (Z.of_nat i) x l = take i l ++ x :: drop i l.
Proof.
  intros Hi. unfold splice_insert.
  destruct (Z.ltb_spec (Z.of_nat i) 0); [lia|].
  by rewrite Z.min_l, Nat2Z.id by lia.
Qed.

Lemma splice_insert_lookup {A} (i : nat) (x : A) (l : list A) :
  (i <= length l)%nat →
  splice_insert (Z.of_nat i) x l !! i = Some x.
Proof.
  intros Hi. rewrite splice_insert_within by done.
  rewrite lookup_app_r; rewrite length_take_le by done; [|done].
  by rewrite Nat.sub_diag.
Qed.

(** The session that a failing answer leaves behind, for the card at the front
    of the queue. *)
Lemma answered_failing (u : Q) (card : Card) (session : LearnSession)
    (rest : list string) :
  (0 <= u)%Q → (u < 1)%Q →
  unseenIds session = uuid card :: rest →
  let i := Z.to_nat (Z.min (Z.of_nat (length rest)) (randomOffset u)) in
  let s' := answered u false card session in
  unseenIds s' = take i rest ++ uuid card :: drop i rest
  ∧ unseenIds s' !! i = Some (uuid card)
  ∧ (i <= 4)%nat ∧ (i <= length rest)%nat
  ∧ (2 <= length rest → 2 <= i)%nat
  ∧ masteredIds s' = masteredIds session
  ∧ questionsAnswered s' = questionsAnswered session + 1
  ∧ correctCount s' = correctCount session.
Proof.
  intros H0 H1 Hq. cbv zeta.
  pose proof (randomOffset_range u H0 H1) as Hr.
  set (i := Z.to_nat (Z.min (Z.of_nat (length rest)) (randomOffset u))).
  assert (Hi : (i <= length rest)%nat) by lia.
  assert (Hz : Z.min (Z.of_nat (length rest)) (randomOffset u) = Z.of_nat i)
    by lia.
  unfold answered. cbn. rewrite Hq. cbn [shift tail]. rewrite Hz.
  split; [by apply splice_insert_within|].
  split; [by apply splice_insert_lookup|].
  repeat split; lia.
Qed.

Lemma learnSession_setLearnSession (o : option LearnSession) (s : State) :
  learnSession (state.setLearnSession o s) = o.
Proof. reflexivity. Qed.

Lemma handleGrade_session (now : Z) (u : Q) (grade : Z) (w : World)
    (session : LearnSession) (set : StudySet) (card : Card) :
  state.getLearnSession (st w) = Some session →
  state.getActiveSet (st w) = Some set →
  findCurrent session set = Some card →
  is_Some (stats card) →
  ∃ w', handleGrade now u grade w = Returned w'
        ∧ learnSession (st w')
          = Some (answered u (spacedRep.GOOD <=? grade) card session).
Proof.
  intros Hs Hset Hcard [cs Hcs]. unfold handleGrade.
  rewrite Hs, Hset, Hcard, Hcs.
  destruct (calculateSM2_returns now cs grade) as [r ->].
  eexists. split; reflexivity.
Qed.

Lemma handleMultipleChoiceAnswer_session (now : Z) (u : Q) (isCorrect : bool)
    (w : World) (session : LearnSession) (set : StudySet) (card : Card) :
  state.getLearnSession (st w) = Some session →
  state.getActiveSet (st w) = Some set →
  findCurrent session set = Some card →
  learnSession (st (handleMultipleChoiceAnswer now u isCorrect w))
    = Some (answered u isCorrect card session).
Proof.
  intros Hs Hset Hcard. unfold handleMultipleChoiceAnswer.
  by rewrite Hs, Hset, Hcard.
Qed.

End answers.

(** In the state [nextQuestion] leaves, an active session whose current
    card stands at the front of the queue, a failing answer (a grade below
    Good in [handleGrade], a wrong choice in [handleMultipleChoiceAnswer])
    takes the card off the front and puts it back at index min(length of the
    rest, 2 + floor(3u)), which is at most 4 and at least 2 when the rest has
    two cards or more; the card stays in the queue, [questionsAnswered] goes
    up by one and [masteredIds] is unchanged. The handlers do not check that
    the current card is at the front; the runs that close this part call
    [handleGrade] where it is not. *)
Theorem failing_answer_requeues (now : Z) (u : Q) (grade : Z) (w : app.World)
    (session : LearnSession) (set : StudySet) (card : Card)
    (rest : list string) :
  (0 <= u)%Q → (u < 1)%Q →
  state.getLearnSession (app.st w) = Some session →
  state.getActiveSet (app.st w) = Some set →
  app.findCurrent session set = Some card →
  unseenIds session = uuid card :: rest →
  (grade < spacedRep.GOOD → is_Some (stats card) →
   ∃ w' s', app.handleGrade now u grade w = Returned w'
            ∧ learnSession (app.st w') = Some s'
            ∧ requeued u card rest session s')
  ∧ ∃ s', learnSession (app.st (app.handleMultipleChoiceAnswer now u false w))
          = Some s'
          ∧ requeued u card rest session s'.
Proof.
  intros H0 H1 Hs Hset Hcard Hq.
  pose proof (randomOffset_range u H0 H1) as Hr.
  pose proof (answered_failing u card session rest H0 H1 Hq) as Ha.
  cbv zeta in Ha. destruct Ha as (Ha1 & Ha2 & Ha3 & _ & Ha5 & Ha6 & Ha7 & _).
  assert (Hreq : requeued u card rest session (app.answered u false card session)).
  { unfold requeued. cbv zeta. done. }
  split.
  - intros Hg Hst.
    destruct (handleGrade_session now u grade w session set card
                Hs Hset Hcard Hst) as (w' & Hw & Hl).
    assert (Hb : (spacedRep.GOOD <=? grade) = false)
      by (apply Z.leb_gt; exact Hg).
    rewrite Hb in Hl. by exists w', (app.answered u false card session).
  - exists (app.answered u false card session). split; [|done].
    by apply handleMultipleChoiceAnswer_session with set.
Qed.

(** ** The audio cache *)

Section audio_cache.
Import storage.

Lemma key_leb_total (k1 k2 : string) :
  key_leb k1 k2 = true ∨ key_leb k2 k1 = true.
Proof.
  unfold key_leb.
  destruct (String_as_OT.compare_spec k1 k2) as [E|L|L]; [by left|by left|].
  right. unfold String_as_OT.lt in L. by rewrite L.
Qed.

Lemma key_leb_spec (k1 k2 : string) :
  key_leb k1 k2 = true ↔ k1 = k2 ∨ String_as_OT.lt k1 k2.
Proof.
  unfold key_leb.
  destruct (String_as_OT.compare_spec k1 k2) as [E|L|L].
  - split; [by left|done].
  - split; [by right|done].
  - split; [done|]. intros [->|L'].
    + by destruct (irreflexivity String_as_OT.lt k2).
    + destruct (irreflexivity String_as_OT.lt k1). by transitivity k2.
Qed.

Lemma key_leb_trans (k1 k2 k3 : string) :
  key_leb k1 k2 = true → key_leb k2 k3 = true → key_leb k1 k3 = true.
Proof.
  rewrite !key_leb_spec. intros [->|L1] [->|L2]; auto.
  right. by transitivity k2.
Qed.

Lemma index_le_spec (e1 e2 : string * AudioEntry) :
  index_le e1 e2
  ↔ accessedAt e1.2 < accessedAt e2.2
    ∨ (accessedAt e1.2 = accessedAt e2.2 ∧ key_leb e1.1 e2.1 = true).
Proof.
  unfold index_le, index_leb.
  rewrite orb_true_iff, andb_true_iff, Z.ltb_lt, Z.eqb_eq. done.
Qed.

#[local] Instance index_le_total : Total index_le.
Proof.
  intros e1 e2. rewrite !index_le_spec.
  destruct (Z.lt_trichotomy (accessedAt e1.2) (accessedAt e2.2)) as [H|[H|H]];
    [by left; left| |by right; left].
  destruct (key_leb_total e1.1 e2.1); [left|right]; right; by split.
Qed.

#[local] Instance index_le_trans : Transitive index_le.
Proof.
  intros e1 e2 e3. rewrite !index_le_spec.
  intros [H1|[H1 K1]] [H2|[H2 K2]]; try (left; lia).
  right. split; [lia|]. by apply key_leb_trans with e2.1.
Qed.

Lemma index_le_accessedAt (e1 e2 : string * AudioEntry) :
  index_le e1 e2 → accessedAt e1.2 <= accessedAt e2.2.
Proof. rewrite index_le_spec. lia. Qed.

Lemma openCursor_perm (db : gmap string AudioEntry) :
  openCursor db ≡ₚ map_to_list db.
Proof. apply merge_sort_Permutation. Qed.

Lemma openCursor_sorted (db : gmap string AudioEntry) :
  StronglySorted index_le (openCursor db).
Proof. apply StronglySorted_merge_sort; apply _. Qed.

Lemma bytesOf_app (l1 l2 : list (string * AudioEntry)) :
  bytesOf (l1 ++ l2) = bytesOf l1 + bytesOf l2.
Proof.
  induction l1 as [|e l1 IH]; cbn; [done|].
  fold (bytesOf (l1 ++ l2)). fold (bytesOf l1). lia.
Qed.

Lemma bytesOf_nonneg (l : list (string * AudioEntry)) : 0 <= bytesOf l.
Proof. induction l as [|e l IH]; cbn; [done|]. fold (bytesOf l). lia. Qed.

Lemma bytesOf_perm (l1 l2 : list (string * AudioEntry)) :
  l1 ≡ₚ l2 → bytesOf l1 = bytesOf l2.
Proof.
  induction 1 as [|e l1 l2 _ IH|e1 e2 l|l1 l2 l3 _ IH1 _ IH2]; cbn;
    fold bytesOf in *; try fold (bytesOf l1); try fold (bytesOf l2);
    try fold (bytesOf l); lia.
Qed.

Lemma foldl_sized (es : list (string * AudioEntry)) (acc : Z) :
  foldl (fun a (e : string * Z) => a + e.2) acc (sized es) = acc + bytesOf es.
Proof.
  revert acc. induction es as [|e es IH]; intros acc; cbn; [lia|].
  fold (sized es). fold (bytesOf es). rewrite IH. lia.
Qed.

Lemma evictLoop_split (maxBytes : Q) (totalSize : Z)
    (es : list (string * AudioEntry)) :
  ∀ (removed : Z) (db : gmap string AudioEntry),
  ∃ ev kp,
    es = ev ++ kp
    ∧ evictLoop maxBytes totalSize removed (sized es) db = deleteAll ev db
    ∧ (∀ p e q, ev = p ++ e :: q →
         (maxBytes * 0.8 < inject_Z (totalSize - removed - bytesOf p))%Q)
    ∧ (kp ≠ [] →
         (inject_Z (totalSize - removed - bytesOf ev) <= maxBytes * 0.8)%Q).
Proof.
  induction es as [|e es IH]; intros removed db.
  { exists [], []. repeat split; try done. intros p e q H. by destruct p. }
  cbn [sized fmap list_fmap evictLoop]. fold (sized es).
  destruct (Qle_bool _ _) eqn:Htest.
  - exists [], (e :: es). split; [done|]. split; [done|]. split.
    + intros p e' q H. by destruct p.
    + intros _. apply Qle_bool_iff in Htest. cbn [bytesOf foldr].
      by rewrite Z.sub_0_r.
  - destruct (IH (removed + Z.of_N (size e.2)) (delete e.1 db))
      as (ev & kp & -> & Hloop & Hmin & Hkp).
    exists (e :: ev), kp. split; [done|]. split; [done|]. split.
    + intros p e' q H. destruct p as [|x p]; cbn in H; simplify_eq.
      * cbn [bytesOf foldr]. rewrite Z.sub_0_r.
        apply Qnot_le_lt. intros Hle. apply Qle_bool_iff in Hle. congruence.
      * specialize (Hmin p e' q eq_refl).
        cbn [bytesOf foldr]. fold (bytesOf p).
        by replace (totalSize - removed - (Z.of_N (size x.2) + bytesOf p))
          with (totalSize - (removed + Z.of_N (size x.2)) - bytesOf p) by lia.
    + intros Hne. specialize (Hkp Hne).
      cbn [bytesOf foldr]. fold (bytesOf ev).
      by replace (totalSize - removed - (Z.of_N (size e.2) + bytesOf ev))
        with (totalSize - (removed + Z.of_N (size e.2)) - bytesOf ev) by lia.
Qed.

Lemma lookup_deleteAll (ev : list (string * AudioEntry)) :
  ∀ (db : gmap string AudioEntry) (k : string),
  deleteAll ev db !! k = if decide (k ∈ ev.*1) then None else db !! k.
Proof.
  induction ev as [|e ev IH]; intros db k; cbn.
  { case_decide as H; [|done]. by apply elem_of_nil in H. }
  fold (deleteAll ev (delete e.1 db)). rewrite IH.
  destruct (decide (k ∈ ev.*1)) as [Hin|Hin].
  - rewrite decide_True; [done|]. by right.
  - destruct (decide (k = e.1)) as [->|Hne].
    + rewrite decide_True by left. apply lookup_delete_eq.
    + rewrite decide_False; [by apply lookup_delete_ne|].
      intros H. apply elem_of_cons in H. by destruct H.
Qed.

(** Deleting a prefix of the cursor leaves exactly the records after it. *)
Lemma deleteAll_prefix (db : gmap string AudioEntry)
    (ev kp : list (string * AudioEntry)) :
  map_to_list db ≡ₚ ev ++ kp →
  (∀ k e, deleteAll ev db !! k = Some e ↔ (k, e) ∈ kp)
  ∧ map_to_list (deleteAll ev db) ≡ₚ kp.
Proof.
  intros Hperm.
  assert (Hnd : NoDup (ev ++ kp).*1).
  { rewrite <- Hperm. apply NoDup_fst_map_to_list. }
  assert (Hlook : ∀ k e, deleteAll ev db !! k = Some e ↔ (k, e) ∈ kp).
  { intros k e. rewrite lookup_deleteAll.
    rewrite fmap_app in Hnd. apply NoDup_app in Hnd as (_ & Hdis & _).
    case_decide as Hin.
    - split; [done|]. intros Hk. destruct (Hdis k Hin).
      apply list_elem_of_fmap. by exists (k, e).
    - rewrite <- elem_of_map_to_list, Hperm, elem_of_app. split; [|by right].
      intros [H|H]; [|done]. destruct Hin.
      apply list_elem_of_fmap. by exists (k, e). }
  split; [done|].
  apply NoDup_Permutation.
  - apply NoDup_map_to_list.
  - rewrite fmap_app in Hnd. apply NoDup_app in Hnd as (_ & _ & Hnd).
    by apply NoDup_fmap_1 in Hnd.
  - intros [k e]. by rewrite elem_of_map_to_list.
Qed.

Lemma evictOldAudioEntries_spec (maxSizeMB : Q) (db : gmap string AudioEntry) :
  (0 <= maxSizeMB)%Q →
  let maxBytes := (maxSizeMB * 1024 * 1024)%Q in
  ∃ evicted kept,
    openCursor db = evicted ++ kept
    ∧ evictOldAudioEntries maxSizeMB (Some db) = Some (deleteAll evicted db)
    ∧ ((inject_Z (storedBytes db) <= maxBytes)%Q → evicted = [])
    ∧ ((maxBytes < inject_Z (storedBytes db))%Q →
         (inject_Z (bytesOf kept) <= maxBytes * 0.8)%Q
         ∧ ∀ p e q, evicted = p ++ e :: q →
             (maxBytes * 0.8 < inject_Z (storedBytes db - bytesOf p))%Q).
Proof.
  intros Hpos. cbv zeta. unfold evictOldAudioEntries.
  fold (sized (openCursor db)). rewrite foldl_sized, Z.add_0_l.
  assert (Htot : bytesOf (openCursor db) = storedBytes db)
    by apply bytesOf_perm, openCursor_perm.
  rewrite Htot.
  destruct (Qle_bool _ _) eqn:Htest; cbn [negb].
  - apply Qle_bool_iff in Htest.
    exists [], (openCursor db). split; [done|]. split; [done|].
    split; [done|]. intros Hgt. lra.
  - assert (Hgt : (maxSizeMB * 1024 * 1024 < inject_Z (storedBytes db))%Q).
    { apply Qnot_le_lt. intros Hle. apply Qle_bool_iff in Hle. congruence. }
    destruct (evictLoop_split (maxSizeMB * 1024 * 1024) (storedBytes db)
                (openCursor db) 0 db) as (ev & kp & Hsplit & Hloop & Hmin & Hkp).
    exists ev, kp. split; [done|]. split; [by rewrite Hloop|].
    split; [intros Hle; lra|]. intros _. split.
    + destruct kp as [|e kp]; [change (inject_Z (bytesOf [])) with 0%Q; lra|].
      assert (Hb : bytesOf (e :: kp) = storedBytes db - 0 - bytesOf ev).
      { rewrite <- Htot, Hsplit, bytesOf_app. lia. }
      rewrite Hb. by apply Hkp.
    + intros p e q Hev. specialize (Hmin p e q Hev).
      by rewrite Z.sub_0_r in Hmin.
Qed.
End audio_cache.

(** C3: [setCachedAudio] with a budget that is not negative writes the record
    and then evicts along the cursor of the index [accessedAt]. With [evicted]
    the records deleted and [kept] the records left, [evicted ++ kept] is the
    cursor, in ascending [accessedAt] order (equal times by key), so every
    evicted record is at least as old as every kept one, and the store
    afterwards holds exactly [kept]. When the bytes stored after the write are
    within [maxBytes = maxSizeMB * 2^20], nothing is deleted. When they exceed
    it, the bytes left are at most [0.8 * maxBytes], and before each deletion
    the bytes still stored were above that bound: no shorter prefix would
    do. *)
Theorem setCachedAudio_evicts (now : Z) (k : string) (b : storage.Blob)
    (maxSizeMB : Q) (db : gmap string storage.AudioEntry) :
  (0 <= maxSizeMB)%Q →
  let db' := <[k := {| storage.blob := b; storage.size := storage.blob_size b;
                       storage.accessedAt := now |}]> db in
  let maxBytes := (maxSizeMB * 1024 * 1024)%Q in
  ∃ evicted kept final,
    storage.setCachedAudio now true k b maxSizeMB (Some db) = (true, Some final)
    ∧ storage.openCursor db' = evicted ++ kept
    ∧ StronglySorted storage.index_le (evicted ++ kept)
    ∧ (∀ e e', e ∈ evicted → e' ∈ kept →
         storage.accessedAt e.2 <= storage.accessedAt e'.2)
    ∧ final = deleteAll evicted db'
    ∧ (∀ k' e, final !! k' = Some e ↔ (k', e) ∈ kept)
    ∧ storedBytes final = bytesOf kept
    ∧ ((inject_Z (storedBytes db') <= maxBytes)%Q →
         evicted = [] ∧ final = db')
    ∧ ((maxBytes < inject_Z (storedBytes db'))%Q →
         (inject_Z (storedBytes final) <= maxBytes * 0.8)%Q
         ∧ ∀ p e q, evicted = p ++ e :: q →
             (maxBytes * 0.8 < inject_Z (storedBytes db' - bytesOf p))%Q).
Proof.
  intros Hpos. cbv zeta.
  set (db' := <[k := _]> db).
  destruct (evictOldAudioEntries_spec maxSizeMB db' Hpos)
    as (ev & kp & Hcur & Hev & Hle & Hgt).
  assert (Hperm : map_to_list db' ≡ₚ ev ++ kp).
  { rewrite <- Hcur. symmetry. apply openCursor_perm. }
  destruct (deleteAll_prefix db' ev kp Hperm) as [Hlook Hleft].
  assert (Hbytes : storedBytes (deleteAll ev db') = bytesOf kp)
    by (by apply bytesOf_perm).
  assert (Hsorted : StronglySorted storage.index_le (ev ++ kp)).
  { rewrite <- Hcur. apply openCursor_sorted. }
  exists ev, kp, (deleteAll ev db').
  split. { unfold storage.setCachedAudio. fold db'. by rewrite Hev. }
  split; [done|]. split; [done|].
  split.
  { intros e e' He He'. apply index_le_accessedAt.
    by apply (StronglySorted_app_1_elem_of _ ev kp). }
  split; [done|]. split; [done|]. split; [done|].
  split.
  - intros H. rewrite (Hle H). done.
  - intros H. destruct (Hgt H) as [Hbound Hmin]. split; [|done].
    by rewrite Hbytes.
Qed.

Lemma setCachedAudio_evicts_witness :
  (0 <= samples.tenBytes)%Q
  ∧ let db' := <[ "cuatro-v1" := {| storage.blob := samples.clip;
                                    storage.size := storage.blob_size samples.clip;
                                    storage.accessedAt := 40 |}]> samples.cache3 in
    let maxBytes := (samples.tenBytes * 1024 * 1024)%Q in
    ∃ evicted kept final,
      storage.setCachedAudio 40 true "cuatro-v1" samples.clip samples.tenBytes
        (Some samples.cache3) = (true, Some final)
      ∧ storage.openCursor db' = evicted ++ kept
      ∧ StronglySorted storage.index_le (evicted ++ kept)
      ∧ (∀ e e', e ∈ evicted → e' ∈ kept →
           storage.accessedAt e.2 <= storage.accessedAt e'.2)
      ∧ final = deleteAll evicted db'
      ∧ (∀ k' e, final !! k' = Some e ↔ (k', e) ∈ kept)
      ∧ storedBytes final = bytesOf kept
      ∧ ((inject_Z (storedBytes db') <= maxBytes)%Q →
         evicted = [] ∧ final = db')
      ∧ ((maxBytes < inject_Z (storedBytes db'))%Q →
           (inject_Z (storedBytes final) <= maxBytes * 0.8)%Q
           ∧ ∀ p e q, evicted = p ++ e :: q →
               (maxBytes * 0.8 < inject_Z (storedBytes db' - bytesOf p))%Q).
Proof.
  assert (H : (0 <= samples.tenBytes)%Q) by (vm_compute; discriminate).
  split; [exact H|].
  exact (setCachedAudio_evicts 40 "cuatro-v1" samples.clip samples.tenBytes
           samples.cache3 H).
Defined.

(** The run behind the witness: sixteen bytes against a budget of ten, so the
    two oldest clips go and eight bytes stay. *)
Lemma setCachedAudio_evicts_two_oldest :
  storage.setCachedAudio 40 true "cuatro-v1" samples.clip samples.tenBytes
    (Some samples.cache3)
  = (true, Some {[ "uno-v1" := samples.entryAt 30;
                   "cuatro-v1" := samples.entryAt 40 ]}).
Proof. vm_compute. reflexivity. Qed.

(** Within the budget nothing is evicted. *)
Lemma setCachedAudio_within_budget :
  storage.setCachedAudio 40 true "cuatro-v1" samples.clip (16 # 1048576)
    (Some samples.cache3)
  = (true, Some (<[ "cuatro-v1" := samples.entryAt 40 ]> samples.cache3)).
Proof. vm_compute. reflexivity. Qed.

(** A negative budget is outside C3: the loop then deletes every record, and
    the empty store is still above 0.8 times the budget. *)
Lemma setCachedAudio_negative_budget :
  storage.setCachedAudio 40 true "cuatro-v1" samples.clip (-1)
    (Some samples.cache3) = (true, Some ∅)
  ∧ ¬ (inject_Z (storedBytes ∅) <= (-1) * 1024 * 1024 * 0.8)%Q.
Proof. split; [vm_compute; reflexivity|]. vm_compute. intros H. by apply H. Qed.

Lemma failing_answer_requeues_witness :
  let w := samples.world1 in
  let card := samples.card1 in
  let session := samples.session1 in
  let set := samples.setOf [card; samples.card2; samples.card3] in
  (0 <= 1 # 2)%Q ∧ (1 # 2 < 1)%Q
  ∧ state.getLearnSession (app.st w) = Some session
  ∧ state.getActiveSet (app.st w) = Some set
  ∧ app.findCurrent session set = Some card
  ∧ unseenIds session = uuid card :: ["c2"; "c3"]
  ∧ 1 < spacedRep.GOOD
  ∧ is_Some (stats card)
  ∧ (∃ w' s', app.handleGrade 5000 (1 # 2) 1 w = Returned w'
              ∧ learnSession (app.st w') = Some s'
              ∧ requeued (1 # 2) card ["c2"; "c3"] session s')
  ∧ ∃ s', learnSession
            (app.st (app.handleMultipleChoiceAnswer 5000 (1 # 2) false w))
          = Some s'
          ∧ requeued (1 # 2) card ["c2"; "c3"] session s'.
Proof.
  cbv zeta.
  assert (H0 : (0 <= 1 # 2)%Q) by (vm_compute; discriminate).
  assert (H1 : (1 # 2 < 1)%Q) by (vm_compute; reflexivity).
  assert (Hs : state.getLearnSession (app.st samples.world1)
               = Some samples.session1) by reflexivity.
  assert (Hset : state.getActiveSet (app.st samples.world1)
                 = Some (samples.setOf
                           [samples.card1; samples.card2; samples.card3]))
    by (vm_compute; reflexivity).
  assert (Hcard : app.findCurrent samples.session1
                    (samples.setOf
                       [samples.card1; samples.card2; samples.card3])
                  = Some samples.card1) by (vm_compute; reflexivity).
  assert (Hq : unseenIds samples.session1 = uuid samples.card1 :: ["c2"; "c3"])
    by reflexivity.
  assert (Hg : 1 < spacedRep.GOOD) by reflexivity.
  assert (Hst : is_Some (stats samples.card1)) by (eexists; reflexivity).
  split; [exact H0|]. split; [exact H1|]. split; [exact Hs|].
  split; [exact Hset|]. split; [exact Hcard|]. split; [exact Hq|].
  split; [exact Hg|]. split; [exact Hst|].
  destruct (failing_answer_requeues 5000 (1 # 2) 1 samples.world1
              samples.session1 _ samples.card1 ["c2"; "c3"]
              H0 H1 Hs Hset Hcard Hq) as [HG HM].
  split; [exact (HG Hg Hst)|exact HM].
Defined.

(** The runs behind the witness: with the draw 1/2 the offset is 3, the rest
    of the queue has two cards, and the missed card returns at index 2. *)
Lemma handleGrade_again_queue :
  (w' ← app.handleGrade 5000 (1 # 2) spacedRep.AGAIN samples.world1;
   mret (unseenIds <$> learnSession (app.st w'),
         questionsAnswered <$> learnSession (app.st w'),
         masteredIds <$> learnSession (app.st w')))
  = Returned (Some ["c2"; "c3"; "c1"], Some 1, Some []).
Proof. vm_compute. reflexivity. Qed.

Lemma handleMultipleChoiceAnswer_wrong_queue :
  let w' := app.handleMultipleChoiceAnswer 5000 (1 # 2) false samples.world1 in
  (unseenIds <$> learnSession (app.st w'),
   questionsAnswered <$> learnSession (app.st w'),
   masteredIds <$> learnSession (app.st w'))
  = (Some ["c2"; "c3"; "c1"], Some 1, Some []).
Proof. vm_compute. reflexivity. Qed.

(** C4 at a session that a failing answer has just left. The queue was
    ["c1"; "c2"; "c3"] with "c1" asked; after the grade Again the feedback is
    shown, the queue is ["c2"; "c3"; "c1"] and [currentQuestionId] still
    names "c1". A second grade key reaches [handleGrade] before the next
    question ([handleKeyboard] only asks for the learn section): the card is
    found by [currentQuestionId], but [shift] takes the front of the queue,
    which is "c2", and "c1" is spliced in once more. The card "c2" is then
    neither queued nor mastered, though it was never answered, and "c1" is
    queued twice. *)
Theorem second_failing_grade_drops_card :
  (w1 ← app.handleGrade 5000 (1 # 2) spacedRep.AGAIN samples.world1;
   w2 ← app.handleGrade 6000 (1 # 2) spacedRep.AGAIN w1;
   mret (unseenIds <$> learnSession (app.st w1),
         currentQuestionId <$> learnSession (app.st w1),
         unseenIds <$> learnSession (app.st w2),
         masteredIds <$> learnSession (app.st w2),
         questionsAnswered <$> learnSession (app.st w2)))
  = Returned (Some ["c2"; "c3"; "c1"], Some (Some "c1"),
              Some ["c3"; "c1"; "c1"], Some [], Some 2).
Proof. vm_compute. reflexivity. Qed.

(** The same key after a passing grade, in the 800 ms before [nextQuestion]
    runs: "c1" is already mastered, the second call takes "c2" off the queue
    and puts "c1" back into it. *)
Lemma failing_grade_after_passing_grade :
  (w1 ← app.handleGrade 5000 (1 # 2) spacedRep.GOOD samples.world1;
   w2 ← app.handleGrade 5400 (1 # 2) spacedRep.AGAIN w1;
   mret (unseenIds <$> learnSession (app.st w1),
         unseenIds <$> learnSession (app.st w2),
         masteredIds <$> learnSession (app.st w2)))
  = Returned (Some ["c2"; "c3"], Some ["c3"; "c1"], Some ["c1"]).
Proof. vm_compute. reflexivity. Qed.


(** * Further properties of the code *)

(** ** More on the scheduler *)

Section scheduler_more.
Import spacedRep.

Lemma Math_round_ge (x : Q) (n : Z) :
  (inject_Z n <= x + (1 # 2))%Q → n <= Math_round x.
Proof.
  intros H. unfold Math_round. rewrite <- (Qfloor_Z n). by apply Qfloor_resp_le.
Qed.

Lemma Math_round_le (x : Q) (n : Z) :
  (x + (1 # 2) < inject_Z (n + 1))%Q → Math_round x <= n.
Proof.
  intros H. unfold Math_round.
  assert (Hf : (inject_Z (Qfloor (x + (1 # 2))) < inject_Z (n + 1))%Q).
  { eapply Qle_lt_trans; [apply Qfloor_le|done]. }
  rewrite <- Zlt_Qlt in Hf. lia.
Qed.

Lemma inject_Z_ge_1 (n : Z) : 1 <= n → (1 <= inject_Z n)%Q.
Proof. intros H. change 1%Q with (inject_Z 1). by rewrite <- Zle_Qle. Qed.


Lemma calculateSM2_interval (now : Z) (s r : Stats) (grade : Z) :
  calculateSM2 now (Some s) grade = Returned r →
  let base := if repetitions s + 1 =? 1 then 1
              else if repetitions s + 1 =? 2 then 6
              else Math_round (inject_Z (interval s) * ease s) in
  interval r =
    (if grade =? AGAIN then 1
     else if grade =? HARD then Z.max 1 (Math_round (inject_Z base * 0.8))
     else if grade =? EASY then Math_round (inject_Z base * 1.3)
     else base)
  ∧ dueAt r = now + interval r * 24 * 60 * 60 * 1000
  ∧ repetitions r = (if grade =? AGAIN then 0 else repetitions s + 1)
  ∧ lastReviewed r = Some now.
Proof.
  unfold calculateSM2, AGAIN, HARD, GOOD, EASY, FIRST, SECOND. intros H. cbv zeta.
  destruct (Z.eqb_spec grade 1) as [E1|E1]; [by inversion H|].
  destruct (Z.eqb_spec grade 2) as [E2|E2]; [by inversion H|].
  destruct (Z.eqb_spec grade 3) as [E3|E3].
  { destruct (Z.eqb_spec grade 4); [lia|]. by inversion H. }
  destruct (Z.eqb_spec grade 4); by inversion H.
Qed.

Lemma base_interval_ge_1 (s : Stats) :
  1 <= interval s → (1.3 <= ease s)%Q →
  1 <= (if repetitions s + 1 =? 1 then 1
        else if repetitions s + 1 =? 2 then 6
        else Math_round (inject_Z (interval s) * ease s)).
Proof.
  intros Hi He. repeat case_match; try lia.
  apply Math_round_ge. apply inject_Z_ge_1 in Hi.
  change (inject_Z 1) with 1%Q. nra.
Qed.

Lemma round_easy_ge (n : Z) : 0 <= n → n <= Math_round (inject_Z n * 1.3).
Proof.
  intros Hn. apply Math_round_ge.
  assert (H : (0 <= inject_Z n)%Q)
    by (change 0%Q with (inject_Z 0); by rewrite <- Zle_Qle).
  lra.
Qed.

Lemma round_hard_le (n : Z) :
  1 <= n → Z.max 1 (Math_round (inject_Z n * 0.8)) <= n.
Proof.
  intros Hn. apply Z.max_lub; [done|]. apply Math_round_le.
  apply inject_Z_ge_1 in Hn. rewrite inject_Z_plus.
  change (inject_Z 1) with 1%Q. lra.
Qed.

End scheduler_more.



(** X2: for the same stats (interval at least one day, ease at least 1.3) a
    better grade never brings the next review closer: the intervals and due
    dates for Again, Hard, Good and Easy are in ascending order, and so is
    the ease. *)
Theorem calculateSM2_grade_order (now : Z) (s : Stats) :
  1 <= interval s →
  (1.3 <= ease s)%Q →
  ∃ ra rh rg re,
    spacedRep.calculateSM2 now (Some s) spacedRep.AGAIN = Returned ra
    ∧ spacedRep.calculateSM2 now (Some s) spacedRep.HARD = Returned rh
    ∧ spacedRep.calculateSM2 now (Some s) spacedRep.GOOD = Returned rg
    ∧ spacedRep.calculateSM2 now (Some s) spacedRep.EASY = Returned re
    ∧ interval ra <= interval rh <= interval rg
    ∧ interval rg <= interval re
    ∧ dueAt ra <= dueAt rh <= dueAt rg
    ∧ dueAt rg <= dueAt re
    ∧ (ease ra <= ease rh)%Q ∧ (ease rh <= ease rg)%Q ∧ (ease rg < ease re)%Q.
Proof.
  intros Hi He.
  destruct (calculateSM2_returns now s spacedRep.AGAIN) as [ra Ha].
  destruct (calculateSM2_returns now s spacedRep.HARD) as [rh Hh].
  destruct (calculateSM2_returns now s spacedRep.GOOD) as [rg Hg].
  destruct (calculateSM2_returns now s spacedRep.EASY) as [re Hee].
  exists ra, rh, rg, re. do 4 (split; [done|]).
  destruct (calculateSM2_interval _ _ _ _ Ha) as (Ia & Da & _).
  destruct (calculateSM2_interval _ _ _ _ Hh) as (Ih & Dh & _).
  destruct (calculateSM2_interval _ _ _ _ Hg) as (Ig & Dg & _).
  destruct (calculateSM2_interval _ _ _ _ Hee) as (Ie & De & _).
  pose proof (calculateSM2_ease _ _ _ _ Ha) as Ea.
  pose proof (calculateSM2_ease _ _ _ _ Hh) as Eh.
  pose proof (calculateSM2_ease _ _ _ _ Hg) as Eg.
  pose proof (calculateSM2_ease _ _ _ _ Hee) as Eee.
  cbv zeta in Ia, Ih, Ig, Ie.
  unfold spacedRep.AGAIN, spacedRep.HARD, spacedRep.GOOD, spacedRep.EASY in *.
  cbn [Z.eqb Pos.eqb] in Ia, Ih, Ig, Ie, Ea, Eh, Eg, Eee.
  pose proof (base_interval_ge_1 s Hi He) as Hb.
  rewrite <- Ig in Ih, Ie, Hb.
  assert (H1 : interval ra <= interval rh) by (rewrite Ia, Ih; lia).
  assert (H2 : interval rh <= interval rg) by (rewrite Ih; by apply round_hard_le).
  assert (H3 : interval rg <= interval re) by (rewrite Ie; apply round_easy_ge; lia).
  split; [done|]. split; [done|]. split; [lia|]. split; [lia|].
  rewrite Ea, Eh, Eg, Eee. unfold spacedRep.MIN_EASE.
  split; [|split].
  - apply Q.max_le_compat_l. lra.
  - apply Q.max_lub; lra.
  - lra.
Qed.

Lemma calculateSM2_grade_order_witness :
  1 <= interval samples.matureStats
  ∧ (1.3 <= ease samples.matureStats)%Q
  ∧ ∃ ra rh rg re,
      spacedRep.calculateSM2 5000 (Some samples.matureStats) spacedRep.AGAIN
        = Returned ra
      ∧ spacedRep.calculateSM2 5000 (Some samples.matureStats) spacedRep.HARD
        = Returned rh
      ∧ spacedRep.calculateSM2 5000 (Some samples.matureStats) spacedRep.GOOD
        = Returned rg
      ∧ spacedRep.calculateSM2 5000 (Some samples.matureStats) spacedRep.EASY
        = Returned re
      ∧ interval ra <= interval rh <= interval rg
      ∧ interval rg <= interval re
      ∧ dueAt ra <= dueAt rh <= dueAt rg
      ∧ dueAt rg <= dueAt re
      ∧ (ease ra <= ease rh)%Q ∧ (ease rh <= ease rg)%Q ∧ (ease rg < ease re)%Q.
Proof.
  assert (H1 : 1 <= interval samples.matureStats) by (vm_compute; discriminate).
  assert (H2 : (1.3 <= ease samples.matureStats)%Q)
    by (vm_compute; discriminate).
  split; [exact H1|]. split; [exact H2|].
  exact (calculateSM2_grade_order 5000 samples.matureStats H1 H2).
Defined.

(** X3: the repetition count goes back to zero on Again and on no other
    grade: every other grade adds one to it. Again also sets the interval
    to one day. *)
Theorem calculateSM2_repetitions_reset (now : Z) (s : Stats) (grade : Z) :
  0 <= repetitions s →
  ∃ r, spacedRep.calculateSM2 now (Some s) grade = Returned r
       ∧ (repetitions r = 0 ↔ grade = spacedRep.AGAIN)
       ∧ (grade ≠ spacedRep.AGAIN → repetitions r = repetitions s + 1)
       ∧ (grade = spacedRep.AGAIN → interval r = 1).
Proof.
  intros Hrep.
  destruct (calculateSM2_returns now s grade) as [r Hr]. exists r.
  split; [done|].
  destruct (calculateSM2_interval _ _ _ _ Hr) as (Hint & _ & Hreps & _).
  cbv zeta in Hint. unfold spacedRep.AGAIN in *.
  destruct (Z.eqb_spec grade 1) as [E|E]; repeat split; intros; try done; lia.
Qed.

Lemma calculateSM2_repetitions_reset_witness :
  0 <= repetitions samples.matureStats
  ∧ ∃ r, spacedRep.calculateSM2 5000 (Some samples.matureStats) 1 = Returned r
         ∧ (repetitions r = 0 ↔ 1 = spacedRep.AGAIN)
         ∧ (1 ≠ spacedRep.AGAIN →
              repetitions r = repetitions samples.matureStats + 1)
         ∧ (1 = spacedRep.AGAIN → interval r = 1).
Proof.
  assert (H : 0 <= repetitions samples.matureStats)
    by (vm_compute; discriminate).
  split; [exact H|].
  exact (calculateSM2_repetitions_reset 5000 samples.matureStats 1 H).
Defined.

(** X4: [getMasteryLevel] never returns 4 or 5. The test for level 3
    (interval at least 7, ease at least 2.0) holds whenever the tests for
    levels 4 and 5 would, and it runs first; so no stats are labelled
    'Known' or 'Mastered'. With a repetition count that is not negative the
    level lies between 0 and 3. *)
Theorem getMasteryLevel_at_most_3 (st : option Stats) :
  spacedRep.getMasteryLevel st <= 3
  ∧ spacedRep.getMasteryLabel (spacedRep.getMasteryLevel st) ≠ "Known"
  ∧ spacedRep.getMasteryLabel (spacedRep.getMasteryLevel st) ≠ "Mastered"
  ∧ (∀ s, st = Some s → 0 <= repetitions s →
       0 <= spacedRep.getMasteryLevel st).
Proof.
  assert (H3 : spacedRep.getMasteryLevel st <= 3).
  { unfold spacedRep.getMasteryLevel. destruct st as [s|]; [|lia].
    destruct (Z.eqb_spec (repetitions s) 0); [lia|].
    destruct (Z.eqb_spec (repetitions s) 1); [lia|].
    destruct (Z.eqb_spec (repetitions s) 2); [lia|].
    destruct (7 <=? interval s) eqn:H7; destruct (Qle_bool 2.0 (ease s)) eqn:E2;
      cbn [andb]; try lia.
    - destruct (21 <=? interval s); cbn [andb];
        [|destruct (60 <=? interval s); cbn [andb]].
      + assert (Qle_bool 2.3 (ease s) = false) as ->; [|].
        { destruct (Qle_bool 2.3 (ease s)) eqn:E3; [|done].
          apply Qle_bool_iff in E3.
          assert (Qle_bool 2.0 (ease s) = true) by (apply Qle_bool_iff; lra).
          congruence. }
        destruct (60 <=? interval s); cbn [andb]; [|lia].
        assert (Qle_bool 2.5 (ease s) = false) as ->; [|lia].
        destruct (Qle_bool 2.5 (ease s)) eqn:E3; [|done].
        apply Qle_bool_iff in E3.
        assert (Qle_bool 2.0 (ease s) = true) by (apply Qle_bool_iff; lra).
        congruence.
      + assert (Qle_bool 2.5 (ease s) = false) as ->; [|lia].
        destruct (Qle_bool 2.5 (ease s)) eqn:E3; [|done].
        apply Qle_bool_iff in E3.
        assert (Qle_bool 2.0 (ease s) = true) by (apply Qle_bool_iff; lra).
        congruence.
      + lia.
    - apply Z.leb_gt in H7.
      destruct (Z.leb_spec 21 (interval s)); [lia|].
      destruct (Z.leb_spec 60 (interval s)); [lia|]. cbn [andb]. lia.
    - apply Z.leb_gt in H7.
      destruct (Z.leb_spec 21 (interval s)); [lia|].
      destruct (Z.leb_spec 60 (interval s)); [lia|]. cbn [andb]. lia. }
  split; [done|].
  assert (Hl : ∀ n, n <= 3 → spacedRep.getMasteryLabel n ≠ "Known"
                              ∧ spacedRep.getMasteryLabel n ≠ "Mastered").
  { intros n Hn. unfold spacedRep.getMasteryLabel.
    destruct (Z.eqb_spec n 0); [done|]. destruct (Z.eqb_spec n 1); [done|].
    destruct (Z.eqb_spec n 2); [done|]. destruct (Z.eqb_spec n 3); [done|].
    destruct (Z.eqb_spec n 4); [lia|]. destruct (Z.eqb_spec n 5); [lia|]. done. }
  destruct (Hl _ H3) as [Hk Hm]. split; [done|]. split; [done|].
  intros s -> Hrep. unfold spacedRep.getMasteryLevel.
  repeat case_match; lia.
Qed.

Lemma getMasteryLevel_at_most_3_witness :
  let st := Some samples.matureStats in
  0 <= repetitions samples.matureStats
  ∧ spacedRep.getMasteryLevel st <= 3
  ∧ spacedRep.getMasteryLabel (spacedRep.getMasteryLevel st) ≠ "Known"
  ∧ spacedRep.getMasteryLabel (spacedRep.getMasteryLevel st) ≠ "Mastered"
  ∧ 0 <= spacedRep.getMasteryLevel st.
Proof.
  cbv zeta.
  assert (H : 0 <= repetitions samples.matureStats)
    by (vm_compute; discriminate).
  split; [exact H|].
  destruct (getMasteryLevel_at_most_3 (Some samples.matureStats))
    as (H3 & Hk & Hm & H0).
  split; [exact H3|]. split; [exact Hk|]. split; [exact Hm|].
  exact (H0 _ eq_refl H).
Defined.

(** Stats that would pass the tests for level 5 are at level 3. *)
Lemma getMasteryLevel_of_long_interval :
  spacedRep.getMasteryLevel
    (Some {| ease := 2.6; interval := 90; dueAt := 0; repetitions := 8;
             lastReviewed := None |}) = 3.
Proof. reflexivity. Qed.

Section sorting_by_due.
Import spacedRep.

Lemma insertByDue_perm (c : Card) (l : list Card) : insertByDue c l ≡ₚ c :: l.
Proof.
  induction l as [|d l IH]; cbn; [done|].
  destruct (dueOrZero c <=? dueOrZero d); [done|].
  rewrite IH. apply Permutation_swap.
Qed.

Lemma insertByDue_sorted (c : Card) (l : list Card) :
  Sorted (fun a b => dueOrZero a <= dueOrZero b) l →
  Sorted (fun a b => dueOrZero a <= dueOrZero b) (insertByDue c l).
Proof.
  induction 1 as [|d l Hs IH Hd]; cbn.
  { by repeat constructor. }
  destruct (Z.leb_spec (dueOrZero c) (dueOrZero d)) as [Hle|Hgt].
  - constructor; [by constructor|]. by constructor.
  - constructor; [done|].
    destruct l as [|e l]; cbn in *.
    + constructor. lia.
    + destruct (Z.leb_spec (dueOrZero c) (dueOrZero e)).
      * constructor. lia.
      * constructor. by inversion Hd.
Qed.

Lemma insertByDue_stable (k : Z) (c : Card) (l : list Card) :
  List.filter (fun x => dueOrZero x =? k) (insertByDue c l)
  = List.filter (fun x => dueOrZero x =? k) (c :: l).
Proof.
  induction l as [|d l IH]; [done|]. cbn [insertByDue].
  destruct (Z.leb_spec (dueOrZero c) (dueOrZero d)) as [Hle|Hgt]; [done|].
  cbn [List.filter] in *. rewrite IH.
  destruct (Z.eqb_spec (dueOrZero d) k) as [Hd|Hd]; [|done].
  destruct (Z.eqb_spec (dueOrZero c) k) as [Hc|Hc]; [lia|done].
Qed.

End sorting_by_due.

(** X5: [sortByDueDate] returns the same cards in ascending order of their
    due date, a card without stats counting as due at 0, and cards with the
    same due date keep the order they had. *)
Theorem sortByDueDate_sorted_permutation (cs : list Card) :
  spacedRep.sortByDueDate cs ≡ₚ cs
  ∧ StronglySorted (fun a b => spacedRep.dueOrZero a <= spacedRep.dueOrZero b)
      (spacedRep.sortByDueDate cs)
  ∧ (∀ k, List.filter (fun c => spacedRep.dueOrZero c =? k)
            (spacedRep.sortByDueDate cs)
          = List.filter (fun c => spacedRep.dueOrZero c =? k) cs).
Proof.
  assert (Hp : spacedRep.sortByDueDate cs ≡ₚ cs).
  { unfold spacedRep.sortByDueDate.
    induction cs as [|c cs IH]; cbn; [done|].
    rewrite insertByDue_perm. by rewrite IH. }
  split; [done|]. clear Hp. split.
  - apply Sorted_StronglySorted.
    { intros a b c ? ?. lia. }
    unfold spacedRep.sortByDueDate.
    induction cs as [|c cs IH]; cbn; [constructor|].
    apply insertByDue_sorted, IH.
  - intros k. unfold spacedRep.sortByDueDate.
    induction cs as [|c cs IH]; [done|].
    cbn [foldr]. rewrite insertByDue_stable. cbn [List.filter]. by rewrite IH.
Qed.

(** ** Cards of a set *)

Section set_cards.
Import state.

Lemma findIndex_Some {A} (p : A → bool) (l : list A) (i : nat) :
  findIndex p l = Some i →
  ∃ x, l !! i = Some x ∧ p x = true ∧ List.find p l = Some x
       ∧ ∀ j y, (j < i)%nat → l !! j = Some y → p y = false.
Proof.
  revert i. induction l as [|a l IH]; intros i; cbn; [done|].
  destruct (p a) eqn:Hp.
  - intros [= <-]. exists a. repeat split; try done. lia.
  - destruct (findIndex p l) as [k|]; cbn; [|done]. intros [= <-].
    destruct (IH k eq_refl) as (x & Hx & Hpx & Hf & Hlt).
    exists x. repeat split; try done.
    intros [|j] y Hj; cbn; [by intros [= <-]|]. apply Hlt. lia.
Qed.

Lemma findIndex_None {A} (p : A → bool) (l : list A) :
  findIndex p l = None → List.find p l = None ∧ ∀ x, x ∈ l → p x = false.
Proof.
  induction l as [|a l IH]; cbn.
  { intros _. split; [done|]. intros x Hx. by apply elem_of_nil in Hx. }
  destruct (p a) eqn:Hp; [done|].
  destruct (findIndex p l) as [k|]; cbn; [done|]. intros _.
  destruct (IH eq_refl) as [Hf Hall]. split; [done|].
  intros x Hx. apply elem_of_cons in Hx as [->|Hx]; auto.
Qed.

Lemma findIndex_insert {A} (p : A → bool) (l : list A) (i : nat) (x : A) :
  findIndex p l = Some i → p x = true → findIndex p (<[i:=x]> l) = Some i.
Proof.
  revert i. induction l as [|a l IH]; intros i; cbn; [done|].
  destruct (p a) eqn:Hp.
  - intros [= <-] Hx. cbn. by rewrite Hx.
  - destruct (findIndex p l) as [k|] eqn:Hk; cbn; [|done]. intros [= <-] Hx.
    change (<[S k:=x]> (a :: l)) with (a :: <[k:=x]> l).
    cbn [findIndex]. rewrite Hp. by rewrite (IH k eq_refl Hx).
Qed.

(** What [updateCard] comes to when the set and the card are there. *)
Lemma updateCard_found (now : Z) (sid cardId : string) (u : CardUpdates)
    (st : State) (set : StudySet) (i : nat) :
  allSets st !! sid = Some set →
  findIndex (fun c => String.eqb (uuid c) cardId) (cards set) = Some i →
  ∃ old, cards set !! i = Some old ∧ uuid old = cardId
    ∧ updateCard now sid cardId u st
      = (putSet sid
           {| set_uuid := set_uuid set; set_name := set_name set;
              cards := <[i := spreadCard now old u]> (cards set);
              set_meta := {| createdAt := createdAt (set_meta set);
                             updatedAt := now |} |} st,
         Some (spreadCard now old u)).
Proof.
  intros Hset Hi.
  destruct (findIndex_Some _ _ _ Hi) as (old & Hold & Hp & _).
  exists old. split; [done|]. split; [by apply String.eqb_eq|].
  unfold updateCard. by rewrite Hset, Hi, Hold.
Qed.


End set_cards.



Section adding_cards.
Import state.

Lemma addCardToSet_room (now : Z) (sid : string) (card : Card) (st : State)
    (set : StudySet) :
  allSets st !! sid = Some set →
  (length (cards set) < 500)%nat →
  addCardToSet now sid card st
  = Added (putSet sid
             {| set_uuid := set_uuid set; set_name := set_name set;
                cards := cards set ++ [card];
                set_meta := {| createdAt := createdAt (set_meta set);
                               updatedAt := now |} |} st) card.
Proof.
  intros Hset Hlen. unfold addCardToSet. rewrite Hset.
  by destruct (Z.leb_spec 500 (Z.of_nat (length (cards set)))); [lia|].
Qed.

Lemma addCardToSet_full (now : Z) (sid : string) (card : Card) (st : State)
    (set : StudySet) :
  allSets st !! sid = Some set →
  (500 <= length (cards set))%nat →
  addCardToSet now sid card st = MaximumCards.
Proof.
  intros Hset Hlen. unfold addCardToSet. rewrite Hset.
  by destruct (Z.leb_spec 500 (Z.of_nat (length (cards set)))); [|lia].
Qed.

Lemma bulkAdd_cards (now : Z) (sid : string)
    (pairs : list (string * string * string)) :
  ∀ (st : State) (set : StudySet),
  allSets st !! sid = Some set →
  ∃ set', allSets (app.bulkAdd now sid pairs st) !! sid = Some set'
    ∧ cards set'
      = cards set
        ++ ((fun pair : string * string * string =>
               createCard now pair.1.1 pair.1.2 pair.2)
              <$> take (500 - length (cards set)) pairs)
    ∧ ∀ sid', sid' ≠ sid →
        allSets (app.bulkAdd now sid pairs st) !! sid' = allSets st !! sid'.
Proof.
  induction pairs as [|pair pairs IH]; intros st set Hset.
  { exists set. cbn. rewrite take_nil. cbn. by rewrite app_nil_r. }
  unfold app.bulkAdd. cbn [foldl]. fold (app.bulkAdd now sid pairs).
  destruct (decide (length (cards set) < 500)%nat) as [Hlt|Hge].
  - rewrite (addCardToSet_room _ _ _ _ set Hset Hlt).
    match goal with |- context [putSet sid ?s st] => set (set1 := s) end.
    destruct (IH (putSet sid set1 st) set1)
      as (set' & Hset' & Hcards & Hother).
    { cbn. apply lookup_insert_eq. }
    exists set'. split; [done|]. split.
    + rewrite Hcards. unfold set1. cbn [cards]. rewrite length_app.
      cbn [length].
      replace (500 - length (cards set))%nat
        with (S (500 - (length (cards set) + 1)))%nat by lia.
      cbn [take fmap list_fmap]. by rewrite <- app_assoc.
    + intros sid' Hne. etrans; [exact (Hother sid' Hne)|]. cbn.
      by rewrite lookup_insert_ne.
  - rewrite (addCardToSet_full _ _ _ _ set Hset) by lia.
    destruct (IH st set Hset) as (set' & Hset' & Hcards & Hother).
    exists set'. split; [done|]. split; [|done].
    rewrite Hcards.
    by replace (500 - length (cards set))%nat with 0%nat by lia.
Qed.

Lemma filter_length_lt {A} (p : A → bool) (l : list A) :
  (length (List.filter p l) <? length l)%nat = true
  ↔ ∃ x, x ∈ l ∧ p x = false.
Proof.
  rewrite Nat.ltb_lt. induction l as [|a l IH]; cbn.
  { split; [lia|]. intros (x & Hx & _). by apply elem_of_nil in Hx. }
  pose proof (filter_length_le p l) as Hle.
  destruct (p a) eqn:Hp; cbn.
  - rewrite <- Nat.succ_lt_mono, IH. split.
    + intros (x & Hx & Hpx). exists x. split; [by right|done].
    + intros (x & Hx & Hpx). apply elem_of_cons in Hx as [->|Hx];
        [congruence|]. by exists x.
  - split; [|lia]. intros _. exists a. split; [by left|done].
Qed.

End adding_cards.

(** X7: the loop of [handleBulkImport] adds the cards for the pairs in order
    until the set holds 500 and drops the rest without a sign; a set that
    starts with at most 500 cards ends with at most 500, and no other set
    changes. *)
Theorem bulkAdd_at_most_500 (now : Z) (sid : string)
    (pairs : list (string * string * string)) (st : State) (set : StudySet) :
  allSets st !! sid = Some set →
  ∃ set', allSets (app.bulkAdd now sid pairs st) !! sid = Some set'
    ∧ cards set'
      = cards set
        ++ ((fun pair : string * string * string =>
               state.createCard now pair.1.1 pair.1.2 pair.2)
              <$> take (500 - length (cards set)) pairs)
    ∧ ((length (cards set) <= 500)%nat → (length (cards set') <= 500)%nat)
    ∧ ∀ sid', sid' ≠ sid →
        allSets (app.bulkAdd now sid pairs st) !! sid' = allSets st !! sid'.
Proof.
  intros Hset.
  destruct (bulkAdd_cards now sid pairs st set Hset)
    as (set' & Hset' & Hcards & Hother).
  exists set'. split; [done|]. split; [done|]. split; [|done].
  intros Hle. rewrite Hcards, length_app, length_fmap, length_take. lia.
Qed.

Lemma bulkAdd_at_most_500_witness :
  let st := samples.stateOf [samples.card1] None in
  let set := samples.setOf [samples.card1] in
  let pairs := [("c2", "dos", "two"); ("c3", "tres", "three")] in
  allSets st !! "s1" = Some set
  ∧ ∃ set', allSets (app.bulkAdd 7000 "s1" pairs st) !! "s1" = Some set'
      ∧ cards set'
        = cards set
          ++ ((fun pair : string * string * string =>
                 state.createCard 7000 pair.1.1 pair.1.2 pair.2)
                <$> take (500 - length (cards set)) pairs)
      ∧ ((length (cards set) <= 500)%nat → (length (cards set') <= 500)%nat)
      ∧ ∀ sid', sid' ≠ "s1" →
          allSets (app.bulkAdd 7000 "s1" pairs st) !! sid' = allSets st !! sid'.
Proof.
  cbv zeta.
  assert (H : allSets (samples.stateOf [samples.card1] None) !! "s1"
              = Some (samples.setOf [samples.card1]))
    by (vm_compute; reflexivity).
  split; [exact H|].
  exact (bulkAdd_at_most_500 7000 "s1" _ _ _ H).
Defined.

(** X8: [deleteCard] removes every card with the identifier and keeps the
    others in their order; it returns [true] exactly when the set held such
    a card, and afterwards [getCard] finds none. *)
Theorem deleteCard_removes (now : Z) (sid cardId : string) (st : State)
    (set : StudySet) :
  allSets st !! sid = Some set →
  let r := state.deleteCard now sid cardId st in
  (r.2 = true ↔ ∃ c, c ∈ cards set ∧ uuid c = cardId)
  ∧ state.getCard r.1 sid cardId = None
  ∧ ∃ set', allSets r.1 !! sid = Some set'
      ∧ cards set'
        = List.filter (fun c => negb (String.eqb (uuid c) cardId)) (cards set)
      ∧ (∀ c, c ∈ cards set' ↔ c ∈ cards set ∧ uuid c ≠ cardId)
      ∧ cards set' `sublist_of` cards set.
Proof.
  intros Hset. cbv zeta. unfold state.deleteCard. rewrite Hset.
  cbn [fst snd]. split.
  { rewrite filter_length_lt. split; intros (c & Hc & Hp); exists c;
      (split; [done|]).
    - apply negb_false_iff in Hp. by apply String.eqb_eq.
    - apply negb_false_iff. by apply String.eqb_eq. }
  assert (Hmem : ∀ c, c ∈ List.filter
                        (fun c => negb (String.eqb (uuid c) cardId)) (cards set)
                      ↔ c ∈ cards set ∧ uuid c ≠ cardId).
  { intros c. rewrite !list_elem_of_In, filter_In, negb_true_iff.
    by rewrite String.eqb_neq. }
  split.
  { unfold state.getCard, state.putSet. cbn. rewrite lookup_insert_eq. cbn.
    destruct (List.find _ _) as [c|] eqn:Hf; [|done].
    apply find_some in Hf as [Hin Hp]. apply list_elem_of_In, Hmem in Hin.
    apply String.eqb_eq in Hp. by destruct Hin. }
  eexists. split; [apply lookup_insert_eq|]. cbn [cards].
  split; [done|]. split; [done|].
  clear. induction (cards set) as [|c l IH]; cbn; [done|].
  destruct (negb _); by constructor.
Qed.

Lemma deleteCard_removes_witness :
  let st := samples.stateOf [samples.card1; samples.card2] None in
  let set := samples.setOf [samples.card1; samples.card2] in
  let r := state.deleteCard 7000 "s1" "c1" st in
  allSets st !! "s1" = Some set
  ∧ (r.2 = true ↔ ∃ c, c ∈ cards set ∧ uuid c = "c1")
  ∧ state.getCard r.1 "s1" "c1" = None
  ∧ ∃ set', allSets r.1 !! "s1" = Some set'
      ∧ cards set'
        = List.filter (fun c => negb (String.eqb (uuid c) "c1")) (cards set)
      ∧ (∀ c, c ∈ cards set' ↔ c ∈ cards set ∧ uuid c ≠ "c1")
      ∧ cards set' `sublist_of` cards set.
Proof.
  cbv zeta.
  assert (H : allSets (samples.stateOf [samples.card1; samples.card2] None)
                !! "s1"
              = Some (samples.setOf [samples.card1; samples.card2]))
    by (vm_compute; reflexivity).
  split; [exact H|].
  exact (deleteCard_removes 7000 "s1" "c1" _ _ H).
Defined.

Section starring.
Import state.

(** One toggle, for a card that is there. *)
Lemma toggleCardStar_found (now : Z) (sid cardId : string) (st : State)
    (set : StudySet) (i : nat) :
  allSets st !! sid = Some set →
  findIndex (fun c => String.eqb (uuid c) cardId) (cards set) = Some i →
  ∃ old, cards set !! i = Some old ∧ uuid old = cardId
    ∧ getCard st sid cardId = Some old
    ∧ toggleCardStar now sid cardId st
      = (putSet sid
           {| set_uuid := set_uuid set; set_name := set_name set;
              cards :=
                <[i := {| uuid := uuid old; term := term old;
                          definition := definition old;
                          starred := negb (starred old);
                          masteryLevel := masteryLevel old;
                          stats := stats old;
                          meta := {| createdAt := createdAt (meta old);
                                     updatedAt := now |} |}]> (cards set);
              set_meta := {| createdAt := createdAt (set_meta set);
                             updatedAt := now |} |} st,
         Some {| uuid := uuid old; term := term old;
                 definition := definition old;
                 starred := negb (starred old);
                 masteryLevel := masteryLevel old;
                 stats := stats old;
                 meta := {| createdAt := createdAt (meta old);
                            updatedAt := now |} |}).
Proof.
  intros Hset Hi.
  destruct (findIndex_Some _ _ _ Hi) as (old & Hold & Hp & Hfind & _).
  exists old. split; [done|]. split; [by apply String.eqb_eq|].
  assert (Hget : getCard st sid cardId = Some old).
  { unfold getCard. by rewrite Hset. }
  split; [done|].
  unfold toggleCardStar. rewrite Hget.
  destruct (updateCard_found now sid cardId
              {| upd_stats := None; upd_masteryLevel := None;
                 upd_starred := Some (negb (starred old)) |} st set i Hset Hi)
    as (old' & Hold' & _ & ->).
  rewrite Hold in Hold'. by simplify_eq.
Qed.

End starring.

(** X9: [toggleCardStar] flips the star of the card that [getCard] finds and
    returns the card; a second toggle brings every card of the set back to
    its content, the [meta] time stamps apart. For an identifier that no card
    has, it returns [null] and changes nothing. *)
Theorem toggleCardStar_twice (now now' : Z) (sid cardId : string) (st : State)
    (set : StudySet) :
  allSets st !! sid = Some set →
  let r1 := state.toggleCardStar now sid cardId st in
  let r2 := state.toggleCardStar now' sid cardId r1.1 in
  (∀ c, state.getCard st sid cardId = Some c →
     ∃ c', r1.2 = Some c' ∧ state.getCard r1.1 sid cardId = Some c'
           ∧ starred c' = negb (starred c) ∧ uuid c' = uuid c)
  ∧ (state.getCard st sid cardId = None → r1 = (st, None))
  ∧ ∃ set2, allSets r2.1 !! sid = Some set2
      ∧ cardContent <$> cards set2 = cardContent <$> cards set.
Proof.
  intros Hset. cbv zeta.
  destruct (state.findIndex (fun c => String.eqb (uuid c) cardId) (cards set))
    as [i|] eqn:Hi.
  - destruct (toggleCardStar_found now sid cardId st set i Hset Hi)
      as (old & Hold & Hid & Hget & Hr1).
    rewrite Hr1. cbn [fst snd].
    match type of Hr1 with _ = (state.putSet sid ?s _, Some ?c) =>
      set (set1 := s) in *; set (c1 := c) in * end.
    assert (Hset1 : allSets (state.putSet sid set1 st) !! sid = Some set1).
    { cbn. apply lookup_insert_eq. }
    assert (Hi1 : state.findIndex (fun c => String.eqb (uuid c) cardId)
                    (cards set1) = Some i).
    { unfold set1. cbn [cards]. apply findIndex_insert; [done|].
      unfold c1. cbn. by apply String.eqb_eq. }
    destruct (toggleCardStar_found now' sid cardId _ set1 i Hset1 Hi1)
      as (old1 & Hold1 & _ & Hget1 & Hr2).
    assert (old1 = c1) as ->.
    { unfold set1 in Hold1. cbn [cards] in Hold1.
      rewrite list_lookup_insert_eq in Hold1; [by simplify_eq|].
      by eapply lookup_lt_Some. }
    split.
    { intros c Hc. rewrite Hget in Hc. simplify_eq.
      exists c1. by rewrite Hget1. }
    split; [by rewrite Hget|].
    rewrite Hr2. cbn [fst]. eexists. split; [cbn; apply lookup_insert_eq|].
    cbn [cards]. unfold set1. cbn [cards].
    rewrite list_insert_insert_eq, list_fmap_insert.
    apply list_insert_id. rewrite list_lookup_fmap, Hold. cbn.
    unfold cardContent, c1. cbn. by rewrite negb_involutive.
  - destruct (findIndex_None _ _ Hi) as [Hfind _].
    assert (Hget : state.getCard st sid cardId = None).
    { unfold state.getCard. by rewrite Hset. }
    assert (Hr1 : state.toggleCardStar now sid cardId st = (st, None)).
    { unfold state.toggleCardStar. by rewrite Hget. }
    rewrite Hr1. cbn [fst snd]. split; [by rewrite Hget|]. split; [done|].
    assert (Hr2 : state.toggleCardStar now' sid cardId st = (st, None)).
    { unfold state.toggleCardStar. by rewrite Hget. }
    rewrite Hr2. by exists set.
Qed.

Lemma toggleCardStar_twice_witness :
  let st := samples.stateOf [samples.card1; samples.card2] None in
  let set := samples.setOf [samples.card1; samples.card2] in
  let r1 := state.toggleCardStar 7000 "s1" "c2" st in
  let r2 := state.toggleCardStar 8000 "s1" "c2" r1.1 in
  allSets st !! "s1" = Some set
  ∧ (∀ c, state.getCard st "s1" "c2" = Some c →
       ∃ c', r1.2 = Some c' ∧ state.getCard r1.1 "s1" "c2" = Some c'
             ∧ starred c' = negb (starred c) ∧ uuid c' = uuid c)
  ∧ (state.getCard st "s1" "c2" = None → r1 = (st, None))
  ∧ ∃ set2, allSets r2.1 !! "s1" = Some set2
      ∧ cardContent <$> cards set2 = cardContent <$> cards set.
Proof.
  cbv zeta.
  assert (H : allSets (samples.stateOf [samples.card1; samples.card2] None)
                !! "s1"
              = Some (samples.setOf [samples.card1; samples.card2]))
    by (vm_compute; reflexivity).
  split; [exact H|].
  exact (toggleCardStar_twice 7000 8000 "s1" "c2" _ _ H).
Defined.

(** ** More on the persisted session *)

(** X10: [loadLearnSession] never hands out a session saved more than 7 days
    before: a session it returns is the stored one, within the 7 days, and
    the storage is left as it was. Once it has returned [null], every later
    load returns [null] too, whatever the clock says, until a session is
    saved again. *)
Theorem loadLearnSession_sound (now now' : Z) (ls : storage.LocalStorage) :
  (∀ s, (storage.loadLearnSession now ls).1 = Some s →
     now - savedAt s <= 7 * 24 * 60 * 60 * 1000
     ∧ storage.getItem storage.LEARN_SESSION ls
       = Some (storage.JSON_stringify s)
     ∧ (storage.loadLearnSession now ls).2 = ls)
  ∧ ((storage.loadLearnSession now ls).1 = None →
     (storage.loadLearnSession now'
        (storage.loadLearnSession now ls).2).1 = None).
Proof.
  unfold storage.loadLearnSession at 1 2 3 5.
  destruct (storage.getItem storage.LEARN_SESSION ls) as [[s0|t]|] eqn:Hget;
    cbn -[Z.gtb Z.mul Z.sub].
  - destruct (Z.gtb_spec (now - savedAt s0) (7 * 24 * 60 * 60 * 1000))
      as [Hold|Hnew]; cbn [fst snd].
    + split; [done|]. intros _.
      rewrite loadLearnSession_absent; [done|apply getItem_removeItem].
    + split; [|done]. intros s [= <-]. done.
  - split; [done|]. intros _. unfold storage.loadLearnSession.
    by rewrite Hget.
  - split; [done|]. intros _. by rewrite loadLearnSession_absent.
Qed.

Lemma loadLearnSession_sound_witness :
  let ls := (storage.saveLearnSession 1000 (Some samples.session1)
               samples.emptyStorage).2 in
  let stored := storage.spreadSavedAt samples.session1 1000 in
  (storage.loadLearnSession 2000 ls).1 = Some stored
  ∧ 2000 - savedAt stored <= 7 * 24 * 60 * 60 * 1000
  ∧ storage.getItem storage.LEARN_SESSION ls
    = Some (storage.JSON_stringify stored)
  ∧ (storage.loadLearnSession 2000 ls).2 = ls
  ∧ (storage.loadLearnSession (1000 + 8 * samples.day) ls).1 = None
  ∧ (storage.loadLearnSession 2000
       (storage.loadLearnSession (1000 + 8 * samples.day) ls).2).1 = None.
Proof.
  cbv zeta.
  set (ls := (storage.saveLearnSession 1000 (Some samples.session1)
                samples.emptyStorage).2).
  assert (H1 : (storage.loadLearnSession 2000 ls).1
               = Some (storage.spreadSavedAt samples.session1 1000))
    by (vm_compute; reflexivity).
  assert (H2 : (storage.loadLearnSession (1000 + 8 * samples.day) ls).1 = None)
    by (vm_compute; reflexivity).
  split; [exact H1|].
  destruct (proj1 (loadLearnSession_sound 2000 0 ls) _ H1) as (Ha & Hb & Hc).
  split; [exact Ha|]. split; [exact Hb|]. split; [exact Hc|].
  split; [exact H2|].
  exact (proj2 (loadLearnSession_sound (1000 + 8 * samples.day) 2000 ls) H2).
Defined.

(** X11: of two saves in a row the later one is what a load finds: the
    second session, stamped with the time of the second save. *)
Theorem saveLearnSession_last_wins (t1 t2 t3 : Z) (s1 s2 : LearnSession)
    (ls : storage.LocalStorage) :
  storage.quotaExceeded ls = false →
  t3 - t2 <= 7 * 24 * 60 * 60 * 1000 →
  let ls1 := (storage.saveLearnSession t1 (Some s1) ls).2 in
  let ls2 := (storage.saveLearnSession t2 (Some s2) ls1).2 in
  (storage.loadLearnSession t3 ls2).1 = Some (storage.spreadSavedAt s2 t2)
  ∧ ls2 = (storage.saveLearnSession t2 (Some s2) ls).2.
Proof.
  intros Hq Hage. cbv zeta.
  rewrite (saveLearnSession_stores t1 s1 ls Hq). cbn [snd].
  rewrite !saveLearnSession_stores by done. cbn [snd storage.items].
  rewrite insert_insert_eq. split; [|done].
  rewrite (loadLearnSession_recent t3 (storage.spreadSavedAt s2 t2)); [done| |done].
  unfold storage.getItem. cbn. apply lookup_insert_eq.
Qed.

Lemma saveLearnSession_last_wins_witness :
  let s1 := samples.session1 in
  let s2 := state.createLearnSession 1500 "s1" ["c3"; "c2"] "starred" in
  let ls := samples.emptyStorage in
  let ls1 := (storage.saveLearnSession 2000 (Some s1) ls).2 in
  let ls2 := (storage.saveLearnSession 3000 (Some s2) ls1).2 in
  storage.quotaExceeded ls = false
  ∧ 4000 - 3000 <= 7 * 24 * 60 * 60 * 1000
  ∧ (storage.loadLearnSession 4000 ls2).1 = Some (storage.spreadSavedAt s2 3000)
  ∧ ls2 = (storage.saveLearnSession 3000 (Some s2) ls).2.
Proof.
  cbv zeta.
  assert (Hq : storage.quotaExceeded samples.emptyStorage = false)
    by reflexivity.
  assert (Hage : 4000 - 3000 <= 7 * 24 * 60 * 60 * 1000)
    by (vm_compute; discriminate).
  split; [exact Hq|]. split; [exact Hage|].
  exact (saveLearnSession_last_wins 2000 3000 4000 samples.session1 _
           samples.emptyStorage Hq Hage).
Defined.

(** ** More on the audio cache *)

Section audio_recency.
Import storage.

Lemma storedBytes_insert (k : string) (e : AudioEntry)
    (db : gmap string AudioEntry) :
  storedBytes (<[k := e]> db)
  = Z.of_N (size e) + storedBytes (delete k db).
Proof.
  unfold storedBytes. rewrite <- insert_delete_eq.
  rewrite (bytesOf_perm _ ((k, e) :: map_to_list (delete k db))); [done|].
  apply map_to_list_insert, lookup_delete_eq.
Qed.

Lemma storedBytes_lookup (k : string) (e : AudioEntry)
    (db : gmap string AudioEntry) :
  db !! k = Some e →
  storedBytes db = Z.of_N (size e) + storedBytes (delete k db).
Proof.
  intros H. unfold storedBytes.
  rewrite <- (bytesOf_perm _ _ (map_to_list_delete db k e H)). done.
Qed.

(** A record written with an access time later than every other one is the
    last that the cursor of the index reaches. *)
Lemma openCursor_last (k : string) (e : AudioEntry)
    (db : gmap string AudioEntry) :
  (∀ k' e', db !! k' = Some e' → k' ≠ k → accessedAt e' < accessedAt e) →
  ∃ front, openCursor (<[k := e]> db) = front ++ [(k, e)].
Proof.
  intros Hnewest. set (db' := <[k := e]> db).
  assert (Hin : (k, e) ∈ openCursor db').
  { rewrite openCursor_perm. apply elem_of_map_to_list, lookup_insert_eq. }
  apply list_elem_of_split in Hin as (l1 & l2 & Hcur).
  exists l1. rewrite Hcur. destruct l2 as [|y l2]; [done|]. exfalso.
  pose proof (openCursor_sorted db') as Hs. rewrite Hcur in Hs.
  apply StronglySorted_app in Hs as (_ & _ & Hs).
  apply StronglySorted_cons in Hs as [Hall _].
  apply Forall_cons in Hall as [Hy _]. apply index_le_accessedAt in Hy.
  cbn in Hy.
  assert (Hnd : NoDup (openCursor db')).
  { rewrite openCursor_perm. apply NoDup_map_to_list. }
  rewrite Hcur in Hnd. apply NoDup_app in Hnd as (_ & _ & Hnd).
  apply NoDup_cons in Hnd as [Hne _].
  assert (Hyin : y ∈ map_to_list db').
  { rewrite <- openCursor_perm, Hcur. apply elem_of_app. right.
    right. by left. }
  destruct y as [ky ey]. apply elem_of_map_to_list in Hyin. unfold db' in Hyin.
  destruct (decide (ky = k)) as [->|Hk].
  - rewrite lookup_insert_eq in Hyin. simplify_eq. apply Hne. by left.
  - rewrite lookup_insert_ne in Hyin by done.
    specialize (Hnewest ky ey Hyin Hk). cbn in Hy. lia.
Qed.

End audio_recency.

(** X12: a hit of [getCachedAudio] returns the stored clip and rewrites its
    record with the time of the read, changing neither another record nor
    the bytes stored; when the read is later than every other access, the
    record becomes the last in eviction order. A miss returns [null] and
    leaves the store as it was. *)
Theorem getCachedAudio_touch (now : Z) (k : string)
    (db : gmap string storage.AudioEntry) :
  let r := storage.getCachedAudio now k (Some db) in
  (db !! k = None → r = (None, Some db))
  ∧ ∀ entry, db !! k = Some entry →
      let touched := {| storage.blob := storage.blob entry;
                        storage.size := storage.size entry;
                        storage.accessedAt := now |} in
      r = (Some (storage.blob entry), Some (<[k := touched]> db))
      ∧ storedBytes (<[k := touched]> db) = storedBytes db
      ∧ ((∀ k' e', db !! k' = Some e' → k' ≠ k →
            storage.accessedAt e' < now) →
         ∃ front, storage.openCursor (<[k := touched]> db)
                  = front ++ [(k, touched)]).
Proof.
  cbv zeta. unfold storage.getCachedAudio. split.
  - by intros ->.
  - intros entry Hentry. rewrite Hentry. split; [done|]. split.
    + by rewrite storedBytes_insert, (storedBytes_lookup k entry db Hentry).
    + intros Hnewest. by apply openCursor_last.
Qed.

Lemma getCachedAudio_touch_witness :
  let r := storage.getCachedAudio 40 "dos-v1" (Some samples.cache3) in
  let touched := samples.entryAt 40 in
  samples.cache3 !! "dos-v1" = Some (samples.entryAt 10)
  ∧ (∀ k' e', samples.cache3 !! k' = Some e' → k' ≠ "dos-v1" →
       storage.accessedAt e' < 40)
  ∧ r = (Some samples.clip, Some (<["dos-v1" := touched]> samples.cache3))
  ∧ storedBytes (<["dos-v1" := touched]> samples.cache3)
    = storedBytes samples.cache3
  ∧ ∃ front, storage.openCursor (<["dos-v1" := touched]> samples.cache3)
             = front ++ [("dos-v1", touched)].
Proof.
  cbv zeta.
  assert (H : samples.cache3 !! "dos-v1" = Some (samples.entryAt 10))
    by (vm_compute; reflexivity).
  assert (Hn : ∀ k' e', samples.cache3 !! k' = Some e' → k' ≠ "dos-v1" →
                 storage.accessedAt e' < 40).
  { intros k' e' Hk _. unfold samples.cache3 in Hk.
    apply lookup_insert_Some in Hk as [[_ <-]|[_ Hk]]; [reflexivity|].
    apply lookup_insert_Some in Hk as [[_ <-]|[_ Hk]]; [reflexivity|].
    apply lookup_singleton_Some in Hk as [_ <-]. reflexivity. }
  split; [exact H|]. split; [exact Hn|].
  destruct (proj2 (getCachedAudio_touch 40 "dos-v1" samples.cache3) _ H)
    as (Ha & Hb & Hc).
  split; [exact Ha|]. split; [exact Hb|]. exact (Hc Hn).
Defined.

Lemma new_record_survives (now : Z) (k : string)
    (b : storage.Blob) (maxSizeMB : Q) (db : gmap string storage.AudioEntry) :
  (0 <= maxSizeMB)%Q →
  (inject_Z (Z.of_N (storage.blob_size b)) <= maxSizeMB * 1024 * 1024 * 0.8)%Q →
  (∀ k' e', db !! k' = Some e' → k' ≠ k → storage.accessedAt e' < now) →
  ∃ final,
    storage.evictOldAudioEntries maxSizeMB
      (Some (<[k := {| storage.blob := b;
                       storage.size := storage.blob_size b;
                       storage.accessedAt := now |}]> db)) = Some final
    ∧ final !! k = Some {| storage.blob := b;
                           storage.size := storage.blob_size b;
                           storage.accessedAt := now |}.
Proof.
  intros Hpos Hfits Hnewest.
  set (entry := {| storage.blob := b; storage.size := storage.blob_size b;
                   storage.accessedAt := now |}).
  set (db' := <[k := entry]> db).
  destruct (evictOldAudioEntries_spec maxSizeMB db' Hpos)
    as (ev & kp & Hcur & Hev & Hle & Hgt).
  assert (Hperm : map_to_list db' ≡ₚ ev ++ kp).
  { rewrite <- Hcur. symmetry. apply openCursor_perm. }
  destruct (deleteAll_prefix db' ev kp Hperm) as [Hlook _].
  destruct (openCursor_last k entry db Hnewest) as [front Hlast].
  fold db' in Hlast.
  assert (Hkept : (k, entry) ∈ kp).
  { assert (Hin : (k, entry) ∈ ev ++ kp).
    { rewrite <- Hcur, Hlast. apply elem_of_app. right. by left. }
    apply elem_of_app in Hin as [Hin|Hin]; [exfalso|done].
    apply list_elem_of_split in Hin as (p & q & Hev').
    assert (Hnd : NoDup (front ++ [(k, entry)])).
    { rewrite <- Hlast, openCursor_perm. apply NoDup_map_to_list. }
    assert (Hq : q ++ kp = [] ∧ p = front).
    { rewrite Hlast, Hev', <- app_assoc in Hcur. cbn in Hcur.
      destruct (q ++ kp) as [|y l] eqn:Hqk using rev_ind.
      - apply app_inj_tail in Hcur as [-> _]. done.
      - clear IHl. rewrite app_comm_cons, app_assoc in Hcur.
        apply app_inj_tail in Hcur as [Hf <-].
        rewrite Hf in Hnd. apply NoDup_app in Hnd as (_ & Hdis & _).
        destruct (Hdis (k, entry)); [|by left].
        apply elem_of_app. right. by left. }
    destruct Hq as [Hq ->]. apply app_eq_nil in Hq as [-> ->].
    assert (Hover : (maxSizeMB * 1024 * 1024 < inject_Z (storedBytes db'))%Q).
    { apply Qnot_le_lt. intros Hwithin. specialize (Hle Hwithin).
      rewrite Hle in Hev'. by destruct front. }
    destruct (Hgt Hover) as [_ Hmin].
    specialize (Hmin front (k, entry) [] Hev').
    assert (Hb : storedBytes db' - bytesOf front
                 = Z.of_N (storage.blob_size b)).
    { unfold storedBytes. rewrite (bytesOf_perm _ _ Hperm), Hev'.
      rewrite app_nil_r, bytesOf_app. cbn. lia. }
    rewrite Hb in Hmin. lra. }
  exists (deleteAll ev db'). split; [done|]. by apply Hlook.
Qed.


(** X13: a clip that fits into 0.8 times the budget outlives its own insert.
    When [setCachedAudio] writes it at a time later than every other access,
    eviction may delete older records but not the new one, and a
    [getCachedAudio] that follows returns the clip. *)
Theorem setCachedAudio_keeps_new (now now' : Z) (k : string)
    (b : storage.Blob) (maxSizeMB : Q) (db : gmap string storage.AudioEntry) :
  (0 <= maxSizeMB)%Q →
  (inject_Z (Z.of_N (storage.blob_size b)) <= maxSizeMB * 1024 * 1024 * 0.8)%Q →
  (∀ k' e', db !! k' = Some e' → k' ≠ k → storage.accessedAt e' < now) →
  ∃ final,
    storage.setCachedAudio now true k b maxSizeMB (Some db) = (true, Some final)
    ∧ final !! k = Some {| storage.blob := b;
                           storage.size := storage.blob_size b;
                           storage.accessedAt := now |}
    ∧ (storage.getCachedAudio now' k (Some final)).1 = Some b.
Proof.
  intros Hpos Hfits Hnewest.
  destruct (new_record_survives now k b maxSizeMB db Hpos Hfits Hnewest)
    as (final & Hev & Hk).
  exists final. split.
  - unfold storage.setCachedAudio. by rewrite Hev.
  - split; [done|]. unfold storage.getCachedAudio. by rewrite Hk.
Qed.

Lemma setCachedAudio_keeps_new_witness :
  (0 <= samples.tenBytes)%Q
  ∧ (inject_Z (Z.of_N (storage.blob_size samples.clip))
     <= samples.tenBytes * 1024 * 1024 * 0.8)%Q
  ∧ (∀ k' e', samples.cache3 !! k' = Some e' → k' ≠ "cuatro-v1" →
       storage.accessedAt e' < 40)
  ∧ ∃ final,
      storage.setCachedAudio 40 true "cuatro-v1" samples.clip samples.tenBytes
        (Some samples.cache3) = (true, Some final)
      ∧ final !! "cuatro-v1"
        = Some {| storage.blob := samples.clip;
                  storage.size := storage.blob_size samples.clip;
                  storage.accessedAt := 40 |}
      ∧ (storage.getCachedAudio 50 "cuatro-v1" (Some final)).1
        = Some samples.clip.
Proof.
  assert (H0 : (0 <= samples.tenBytes)%Q) by (vm_compute; discriminate).
  assert (H1 : (inject_Z (Z.of_N (storage.blob_size samples.clip))
                <= samples.tenBytes * 1024 * 1024 * 0.8)%Q)
    by (vm_compute; discriminate).
  assert (Hn : ∀ k' e', samples.cache3 !! k' = Some e' → k' ≠ "cuatro-v1" →
                 storage.accessedAt e' < 40).
  { intros k' e' Hk _. unfold samples.cache3 in Hk.
    apply lookup_insert_Some in Hk as [[_ <-]|[_ Hk]]; [reflexivity|].
    apply lookup_insert_Some in Hk as [[_ <-]|[_ Hk]]; [reflexivity|].
    apply lookup_singleton_Some in Hk as [_ <-]. reflexivity. }
  split; [exact H0|]. split; [exact H1|]. split; [exact Hn|].
  exact (setCachedAudio_keeps_new 40 50 "cuatro-v1" samples.clip
           samples.tenBytes samples.cache3 H0 H1 Hn).
Defined.

(** X14: with a budget that is not negative, eviction leaves a store that a
    second eviction does not touch. *)
Theorem evictOldAudioEntries_idempotent (maxSizeMB : Q)
    (db : gmap string storage.AudioEntry) :
  (0 <= maxSizeMB)%Q →
  ∃ db1, storage.evictOldAudioEntries maxSizeMB (Some db) = Some db1
    ∧ storage.evictOldAudioEntries maxSizeMB (Some db1) = Some db1
    ∧ (inject_Z (storedBytes db1) <= maxSizeMB * 1024 * 1024)%Q.
Proof.
  intros Hpos.
  destruct (evictOldAudioEntries_spec maxSizeMB db Hpos)
    as (ev & kp & Hcur & Hev & Hle & Hgt).
  assert (Hperm : map_to_list db ≡ₚ ev ++ kp).
  { rewrite <- Hcur. symmetry. apply openCursor_perm. }
  destruct (deleteAll_prefix db ev kp Hperm) as [_ Hleft].
  assert (Hbytes : storedBytes (deleteAll ev db) = bytesOf kp)
    by (by apply bytesOf_perm).
  assert (Hwithin : (inject_Z (storedBytes (deleteAll ev db))
                     <= maxSizeMB * 1024 * 1024)%Q).
  { destruct (Qlt_le_dec (maxSizeMB * 1024 * 1024) (inject_Z (storedBytes db)))
      as [Hover|Hin].
    - destruct (Hgt Hover) as [Hbound _]. rewrite Hbytes. lra.
    - rewrite (Hle Hin). done. }
  exists (deleteAll ev db). split; [done|]. split; [|done].
  destruct (evictOldAudioEntries_spec maxSizeMB (deleteAll ev db) Hpos)
    as (ev' & kp' & _ & Hev' & Hle' & _).
  rewrite Hev', (Hle' Hwithin). done.
Qed.

Lemma evictOldAudioEntries_idempotent_witness :
  (0 <= samples.tenBytes)%Q
  ∧ ∃ db1,
      storage.evictOldAudioEntries samples.tenBytes (Some samples.cache3)
        = Some db1
      ∧ storage.evictOldAudioEntries samples.tenBytes (Some db1) = Some db1
      ∧ (inject_Z (storedBytes db1) <= samples.tenBytes * 1024 * 1024)%Q.
Proof.
  assert (H0 : (0 <= samples.tenBytes)%Q) by (vm_compute; discriminate).
  split; [exact H0|].
  exact (evictOldAudioEntries_idempotent samples.tenBytes samples.cache3 H0).
Defined.

(** ** More on cache keys and the pre-cache queue *)

Section cache_keys.

Lemma list_ascii_of_string_append (a b : string) :
  String.list_ascii_of_string (a +:+ b)
  = String.list_ascii_of_string a ++ String.list_ascii_of_string b.
Proof.
  induction a as [|c a IH]; [done|].
  change (String.String c a +:+ b) with (String.String c (a +:+ b)).
  cbn [String.list_ascii_of_string]. by rewrite IH.
Qed.

Lemma append_inj_r (a b c : string) : a +:+ c = b +:+ c → a = b.
Proof.
  intros H. apply (f_equal String.list_ascii_of_string) in H.
  rewrite !list_ascii_of_string_append in H. apply app_inv_tail in H.
  rewrite <- (String.string_of_list_ascii_of_string a).
  rewrite <- (String.string_of_list_ascii_of_string b). by rewrite H.
Qed.

Lemma substring0_short (n : nat) (s : string) :
  (String.length s <= n)%nat → substring0 n s = s.
Proof.
  unfold substring0. revert n.
  induction s as [|c s IH]; intros [|n] H; cbn in *; try done; try lia.
  rewrite IH; [done|lia].
Qed.

End cache_keys.

(** X15: under one voice, two texts get the same cache key exactly when
    their first 100 characters agree; texts of at most 100 characters never
    share a key. *)
Theorem getCacheKey_same_voice (text1 text2 voiceId : string) :
  (tts.getCacheKey text1 voiceId = tts.getCacheKey text2 voiceId
   ↔ substring0 100 text1 = substring0 100 text2)
  ∧ ((String.length text1 <= 100)%nat → (String.length text2 <= 100)%nat →
     tts.getCacheKey text1 voiceId = tts.getCacheKey text2 voiceId →
     text1 = text2).
Proof.
  assert (Hiff : tts.getCacheKey text1 voiceId = tts.getCacheKey text2 voiceId
                 ↔ substring0 100 text1 = substring0 100 text2).
  { unfold tts.getCacheKey. cbv zeta. split; [|by intros ->].
    apply append_inj_r. }
  split; [done|]. intros H1 H2 Hk. apply Hiff in Hk.
  by rewrite !substring0_short in Hk.
Qed.

Lemma getCacheKey_same_voice_witness :
  (String.length "uno" <= 100)%nat
  ∧ (String.length "uno" <= 100)%nat
  ∧ tts.getCacheKey "uno" "v1" = tts.getCacheKey "uno" "v1"
  ∧ "uno" = "uno".
Proof.
  assert (H : (String.length "uno" <= 100)%nat) by (vm_compute; lia).
  assert (Hk : tts.getCacheKey "uno" "v1" = tts.getCacheKey "uno" "v1")
    by reflexivity.
  split; [exact H|]. split; [exact H|]. split; [exact Hk|].
  exact (proj2 (getCacheKey_same_voice "uno" "uno" "v1") H H Hk).
Defined.

(** Across voices the hyphen does not keep keys apart. *)
Lemma getCacheKey_collides_across_voices :
  tts.getCacheKey "a-b" "c" = tts.getCacheKey "a" "b-c".
Proof. reflexivity. Qed.

Section draining.
Import tts.

Lemma drain_queue (fuel : nat) :
  ∀ m, (length (preCacheQueue m) < fuel)%nat →
       drain fuel m
       = ({| preCacheQueue := []; isPreCaching := false |}, preCacheQueue m).
Proof.
  induction fuel as [|fuel IH]; intros [q b] Hlen; cbn in *; [lia|].
  destruct q as [|card rest]; cbn; [done|].
  destruct rest as [|card2 rest]; cbn; [done|].
  rewrite IH by (cbn in *; lia). done.
Qed.

Lemma drain_exact (q : list Card) :
  ∀ b, q ≠ [] →
       drain (length q) {| preCacheQueue := q; isPreCaching := b |}
       = ({| preCacheQueue := []; isPreCaching := false |}, q).
Proof.
  induction q as [|card rest IH]; intros b Hne; [done|].
  destruct rest as [|card2 rest]; [reflexivity|].
  change (length (card :: card2 :: rest)) with (S (length (card2 :: rest))).
  cbn [drain processPreCacheQueue processPreCacheQueue_end preCacheQueue].
  by rewrite IH.
Qed.

End draining.

(** X16: left alone, the runs of [processPreCacheQueue] that the timer chains
    take the queued cards one by one in queue order, one per run, and the
    last run leaves the queue empty and [isPreCaching] false. More runs than
    the queue has cards are never needed. *)
Theorem drain_takes_queue (fuel : nat) (m : tts.ModuleVars) :
  (length (tts.preCacheQueue m) < fuel)%nat →
  tts.drain fuel m
  = ({| tts.preCacheQueue := []; tts.isPreCaching := false |},
     tts.preCacheQueue m)
  ∧ tts.drain (length (tts.preCacheQueue m)) m
    = (if decide (tts.preCacheQueue m = []) then m
       else {| tts.preCacheQueue := []; tts.isPreCaching := false |},
       tts.preCacheQueue m).
Proof.
  intros Hlen. split; [by apply drain_queue|].
  destruct m as [q b]. cbn [tts.preCacheQueue].
  destruct q as [|card rest]; [done|].
  rewrite decide_False by done. by apply drain_exact.
Qed.

Lemma drain_takes_queue_witness :
  let m := {| tts.preCacheQueue := [samples.card1; samples.card2];
              tts.isPreCaching := false |} in
  (length (tts.preCacheQueue m) < 3)%nat
  ∧ tts.drain 3 m
    = ({| tts.preCacheQueue := []; tts.isPreCaching := false |},
       tts.preCacheQueue m)
  ∧ tts.drain (length (tts.preCacheQueue m)) m
    = (if decide (tts.preCacheQueue m = []) then m
       else {| tts.preCacheQueue := []; tts.isPreCaching := false |},
       tts.preCacheQueue m).
Proof.
  cbv zeta.
  assert (H : (length (tts.preCacheQueue
                         {| tts.preCacheQueue := [samples.card1; samples.card2];
                            tts.isPreCaching := false |}) < 3)%nat)
    by (cbn; lia).
  split; [exact H|].
  exact (drain_takes_queue 3 _ H).
Defined.

(** X17: a run of [processPreCacheQueue] over an open store takes the card at
    the front of the queue. If its key is cached, the run requests nothing
    and only stamps the record with the time of the run. If it is not cached
    and the request fails, the store is left as it was. If the request
    succeeds with a clip within 0.8 times the budget, at a time later than
    every access recorded, the clip is in the store afterwards under the
    card's key. In each case the run goes on to the rest of the queue. *)
Theorem processPreCacheQueue_run_cache (now : Z)
    (fetch : string → option storage.Blob) (st : State) (m : tts.ModuleVars)
    (db : gmap string storage.AudioEntry) (card : Card) (rest : list Card) :
  tts.preCacheQueue m = card :: rest →
  let key := tts.getCacheKey (term card) (selectedVoiceId (ttsState st)) in
  let vars := (tts.processPreCacheQueue_end
                 {| tts.preCacheQueue := rest; tts.isPreCaching := true |}).1 in
  let run := tts.processPreCacheQueue_run now fetch true st m (Some db) in
  (∀ e, db !! key = Some e →
     run = (vars,
            Some (<[key := {| storage.blob := storage.blob e;
                              storage.size := storage.size e;
                              storage.accessedAt := now |}]> db),
            None))
  ∧ (db !! key = None → fetch (term card) = None →
     run = (vars, Some db, Some (term card)))
  ∧ (∀ b, db !! key = None → fetch (term card) = Some b →
       (inject_Z (Z.of_N (storage.blob_size b))
        <= tts.cacheBudget (ttsState st) * 1024 * 1024 * 0.8)%Q →
       (∀ k' e', db !! k' = Some e' → storage.accessedAt e' < now) →
       ∃ final, run = (vars, Some final, Some (term card))
         ∧ final !! key = Some {| storage.blob := b;
                                  storage.size := storage.blob_size b;
                                  storage.accessedAt := now |}).
Proof.
  intros Hq. cbv zeta. unfold tts.processPreCacheQueue_run.
  unfold tts.processPreCacheQueue at 1 2 3. rewrite Hq.
  unfold state.getTtsState.
  set (key := tts.getCacheKey (term card) (selectedVoiceId (ttsState st))).
  split; [|split].
  - intros e He. unfold storage.getCachedAudio. by rewrite He.
  - intros Hmiss Hfail. unfold storage.getCachedAudio.
    by rewrite Hmiss, Hfail.
  - intros b Hmiss Hok Hfits Hnewest.
    unfold storage.getCachedAudio. rewrite Hmiss, Hok.
    assert (Hpos : (0 <= tts.cacheBudget (ttsState st))%Q).
    { assert (H0 : (0 <= inject_Z (Z.of_N (storage.blob_size b)))%Q).
      { change 0%Q with (inject_Z 0). rewrite <- Zle_Qle. lia. }
      lra. }
    destruct (new_record_survives now key b _ db Hpos Hfits)
      as (final & Hev & Hfinal).
    { intros k' e' Hk' _. by apply (Hnewest k' e'). }
    exists final. unfold storage.setCachedAudio. by rewrite Hev.
Qed.

Lemma processPreCacheQueue_run_cache_witness :
  let st := samples.stateOf [] None in
  let m1 := {| tts.preCacheQueue := [samples.card1; samples.card4];
               tts.isPreCaching := false |} in
  let m4 := {| tts.preCacheQueue := [samples.card4];
               tts.isPreCaching := true |} in
  tts.preCacheQueue m1 = samples.card1 :: [samples.card4]
  ∧ samples.cache3 !! "uno-v1" = Some (samples.entryAt 30)
  ∧ tts.processPreCacheQueue_run 40 samples.fetchCuatro true st m1
      (Some samples.cache3)
    = (m4, Some (<["uno-v1" := samples.entryAt 40]> samples.cache3), None)
  ∧ tts.preCacheQueue m4 = samples.card4 :: []
  ∧ samples.cache3 !! "cuatro-v1" = None
  ∧ samples.fetchCuatro (term samples.card4) = Some samples.clip
  ∧ (inject_Z (Z.of_N (storage.blob_size samples.clip))
     <= tts.cacheBudget (ttsState st) * 1024 * 1024 * 0.8)%Q
  ∧ (∀ k' e', samples.cache3 !! k' = Some e' → storage.accessedAt e' < 40)
  ∧ ∃ final,
      tts.processPreCacheQueue_run 40 samples.fetchCuatro true st m4
        (Some samples.cache3)
      = ({| tts.preCacheQueue := []; tts.isPreCaching := false |},
         Some final, Some "cuatro")
      ∧ final !! "cuatro-v1" = Some (samples.entryAt 40).
Proof.
  cbv zeta.
  assert (Hq1 : tts.preCacheQueue
                  {| tts.preCacheQueue := [samples.card1; samples.card4];
                     tts.isPreCaching := false |}
                = samples.card1 :: [samples.card4]) by reflexivity.
  assert (Hhit : samples.cache3 !! "uno-v1" = Some (samples.entryAt 30))
    by (vm_compute; reflexivity).
  assert (Hq4 : tts.preCacheQueue
                  {| tts.preCacheQueue := [samples.card4];
                     tts.isPreCaching := true |}
                = samples.card4 :: []) by reflexivity.
  assert (Hmiss : samples.cache3 !! "cuatro-v1" = None)
    by (vm_compute; reflexivity).
  assert (Hok : samples.fetchCuatro (term samples.card4) = Some samples.clip)
    by reflexivity.
  assert (Hfits : (inject_Z (Z.of_N (storage.blob_size samples.clip))
                   <= tts.cacheBudget (ttsState (samples.stateOf [] None))
                      * 1024 * 1024 * 0.8)%Q)
    by (vm_compute; discriminate).
  assert (Hn : ∀ k' e', samples.cache3 !! k' = Some e' →
                 storage.accessedAt e' < 40).
  { intros k' e' Hk. unfold samples.cache3 in Hk.
    apply lookup_insert_Some in Hk as [[_ <-]|[_ Hk]]; [reflexivity|].
    apply lookup_insert_Some in Hk as [[_ <-]|[_ Hk]]; [reflexivity|].
    apply lookup_singleton_Some in Hk as [_ <-]. reflexivity. }
  split; [exact Hq1|]. split; [exact Hhit|].
  split.
  { exact (proj1 (processPreCacheQueue_run_cache 40 samples.fetchCuatro
                    (samples.stateOf [] None) _ samples.cache3 _ _ Hq1)
             _ Hhit). }
  split; [exact Hq4|]. split; [exact Hmiss|]. split; [exact Hok|].
  split; [exact Hfits|]. split; [exact Hn|].
  exact (proj2 (proj2 (processPreCacheQueue_run_cache 40 samples.fetchCuatro
                         (samples.stateOf [] None) _ samples.cache3 _ _ Hq4))
           _ Hmiss Hok Hfits Hn).
Defined.

(** ** Starting a session *)

Section shuffling.
Import app.

Lemma insert_cons_perm {A} (l : list A) (j : nat) (b x : A) :
  l !! j = Some b → b :: <[j := x]> l ≡ₚ x :: l.
Proof.
  revert j. induction l as [|y l IH]; intros [|j] H; cbn in *; try done.
  - simplify_eq. apply Permutation_swap.
  - change (<[S j := x]> (y :: l)) with (y :: <[j := x]> l).
    rewrite Permutation_swap, (IH j H). apply Permutation_swap.
Qed.

Lemma swap_perm {A} (i j : nat) (l : list A) : swap i j l ≡ₚ l.
Proof.
  unfold swap.
  destruct (l !! i) as [a|] eqn:Hi; [|done].
  destruct (l !! j) as [b|] eqn:Hj; [|done].
  revert i j Hi Hj. induction l as [|x l IH]; intros [|i] [|j] Hi Hj;
    cbn in *; try done.
  - by simplify_eq.
  - simplify_eq.
    change (<[0%nat := b]> (<[S j := a]> (a :: l))) with (b :: <[j := a]> l).
    by apply insert_cons_perm.
  - simplify_eq.
    change (<[S i := b]> (<[0%nat := a]> (b :: l))) with (a :: <[i := b]> l).
    by apply insert_cons_perm.
  - change (<[S i := b]> (<[S j := a]> (x :: l)))
      with (x :: <[i := b]> (<[j := a]> l)).
    by rewrite (IH i j Hi Hj).
Qed.

Lemma shuffleLoop_perm {A} (us : nat → Q) (i : nat) :
  ∀ l : list A, shuffleLoop i us l ≡ₚ l.
Proof.
  induction i as [|i IH]; intros l; [done|].
  cbn [shuffleLoop]. rewrite IH. apply swap_perm.
Qed.

Lemma shuffleArray_perm {A} (us : nat → Q) (l : list A) :
  shuffleArray us l ≡ₚ l.
Proof. apply shuffleLoop_perm. Qed.

(** With a draw in [0, 1) the partner of index [i] lies between 0 and [i]. *)
Lemma shuffle_partner_range (u : Q) (i : nat) :
  (0 <= u)%Q → (u < 1)%Q →
  (Z.to_nat (Math_floor (u * inject_Z (Z.of_nat i + 1))) <= i)%nat.
Proof.
  intros H0 H1. unfold Math_floor.
  assert (Hi : (0 <= inject_Z (Z.of_nat i + 1))%Q).
  { change 0%Q with (inject_Z 0). rewrite <- Zle_Qle. lia. }
  assert (Hlt : (inject_Z (Qfloor (u * inject_Z (Z.of_nat i + 1)))
                 < inject_Z (Z.of_nat i + 1))%Q).
  { eapply Qle_lt_trans; [apply Qfloor_le|].
    assert (Hp : (0 < inject_Z (Z.of_nat i + 1))%Q).
    { change 0%Q with (inject_Z 0). rewrite <- Zlt_Qlt. lia. }
    nra. }
  rewrite <- Zlt_Qlt in Hlt. lia.
Qed.

End shuffling.

(** X18: [shuffleArray] returns the elements of its argument in some order,
    none lost and none twice; with draws in [0, 1) every exchange of the loop
    stays inside the array. *)
Theorem shuffleArray_permutation {A} (us : nat → Q) (array : list A) :
  (∀ i, (0 <= us i)%Q ∧ (us i < 1)%Q) →
  app.shuffleArray us array ≡ₚ array
  ∧ length (app.shuffleArray us array) = length array
  ∧ ∀ i, (Z.to_nat (Math_floor (us i * inject_Z (Z.of_nat i + 1))) <= i)%nat.
Proof.
  intros Hus. split; [apply shuffleArray_perm|].
  split; [by rewrite shuffleArray_perm|].
  intros i. destruct (Hus i). by apply shuffle_partner_range.
Qed.

Lemma shuffleArray_permutation_witness :
  let us := fun _ : nat => (1 # 2)%Q in
  (∀ i, (0 <= us i)%Q ∧ (us i < 1)%Q)
  ∧ app.shuffleArray us ["c1"; "c2"; "c3"; "c4"] ≡ₚ ["c1"; "c2"; "c3"; "c4"]
  ∧ length (app.shuffleArray us ["c1"; "c2"; "c3"; "c4"])
    = length ["c1"; "c2"; "c3"; "c4"]
  ∧ ∀ i, (Z.to_nat (Math_floor (us i * inject_Z (Z.of_nat i + 1))) <= i)%nat.
Proof.
  cbv zeta.
  assert (H : ∀ i : nat, (0 <= 1 # 2)%Q ∧ (1 # 2 < 1)%Q).
  { intros _. split; [vm_compute; discriminate|vm_compute; reflexivity]. }
  split; [exact H|].
  exact (shuffleArray_permutation (fun _ => (1 # 2)%Q) ["c1"; "c2"; "c3"; "c4"] H).
Defined.

(** The run behind the witness. *)
Lemma shuffleArray_halves :
  app.shuffleArray (fun _ => (1 # 2)%Q) ["c1"; "c2"; "c3"; "c4"]
  = ["c1"; "c4"; "c2"; "c3"].
Proof. vm_compute. reflexivity. Qed.

(** X19: [initializeNewSession] gives no session when the mode selects fewer
    than two cards of the set. Otherwise the session's queue holds the
    identifiers of exactly the selected cards, each as often as selected, in
    the shuffled order; nothing is mastered, no question is current and the
    counters are at zero. *)
Theorem initializeNewSession_queue (now : Z) (us : nat → Q) (set : StudySet)
    (md : string) :
  let selected := List.filter (inMode now md) (cards set) in
  ((length selected < 2)%nat → app.initializeNewSession now us set md = None)
  ∧ ((2 <= length selected)%nat →
     ∃ s, app.initializeNewSession now us set md = Some s
       ∧ unseenIds s ≡ₚ uuid <$> selected
       ∧ (2 <= length (unseenIds s))%nat
       ∧ masteredIds s = [] ∧ currentQuestionId s = None
       ∧ questionsAnswered s = 0 ∧ correctCount s = 0
       ∧ setId s = set_uuid set ∧ mode s = md
       ∧ startedAt s = now ∧ savedAt s = now).
Proof.
  cbv zeta.
  assert (Hsel : (if String.eqb md "starred"
                  then List.filter starred (cards set)
                  else if String.eqb md "due"
                       then List.filter (fun c => spacedRep.isCardDue now c)
                              (cards set)
                       else cards set)
                 = List.filter (inMode now md) (cards set)).
  { unfold inMode. destruct (String.eqb md "starred"); [done|].
    destruct (String.eqb md "due"); [done|].
    induction (cards set) as [|c l IH]; cbn; [done|]. by rewrite <- IH. }
  unfold app.initializeNewSession. cbv zeta. rewrite Hsel.
  set (selected := List.filter (inMode now md) (cards set)).
  split.
  - intros Hlt. by destruct (Nat.ltb_spec (length selected) 2); [|lia].
  - intros Hge. destruct (Nat.ltb_spec (length selected) 2); [lia|].
    eexists. split; [done|]. cbn.
    split; [by rewrite shuffleArray_perm|].
    split; [|done]. by rewrite length_fmap, shuffleArray_perm.
Qed.

Lemma initializeNewSession_queue_witness :
  let set := samples.setOf [samples.card1; samples.card2; samples.card3] in
  let us := fun _ : nat => (1 # 2)%Q in
  let selected := List.filter (inMode 5000 "due") (cards set) in
  (2 <= length selected)%nat
  ∧ (∃ s, app.initializeNewSession 5000 us set "due" = Some s
       ∧ unseenIds s ≡ₚ uuid <$> selected
       ∧ (2 <= length (unseenIds s))%nat
       ∧ masteredIds s = [] ∧ currentQuestionId s = None
       ∧ questionsAnswered s = 0 ∧ correctCount s = 0
       ∧ setId s = set_uuid set ∧ mode s = "due"
       ∧ startedAt s = 5000 ∧ savedAt s = 5000)
  ∧ (length (List.filter (inMode 5000 "starred") (cards set)) < 2)%nat
  ∧ app.initializeNewSession 5000 us set "starred" = None.
Proof.
  cbv zeta.
  assert (H2 : (2 <= length (List.filter (inMode 5000 "due")
                               (cards (samples.setOf
                                  [samples.card1; samples.card2;
                                   samples.card3]))))%nat)
    by (vm_compute; lia).
  assert (H0 : (length (List.filter (inMode 5000 "starred")
                          (cards (samples.setOf
                             [samples.card1; samples.card2;
                              samples.card3]))) < 2)%nat)
    by (vm_compute; lia).
  split; [exact H2|].
  split; [exact (proj2 (initializeNewSession_queue 5000 _ _ "due") H2)|].
  split; [exact H0|].
  exact (proj1 (initializeNewSession_queue 5000 _ _ "starred") H0).
Defined.

(** ** More on answers *)

Section answers_more.
Import app.

Lemma splice_insert_perm {A} (start : Z) (x : A) (l : list A) :
  splice_insert start x l ≡ₚ x :: l.
Proof.
  unfold splice_insert. cbv zeta.
  rewrite <- Permutation_middle. by rewrite take_drop.
Qed.

Lemma answered_progress (u : Q) (correct : bool) (card : Card)
    (session : LearnSession) (rest : list string) :
  unseenIds session = uuid card :: rest →
  progressKept session (answered u correct card session).
Proof.
  intros Hq. unfold progressKept, answered. cbv zeta.
  destruct correct; cbn; rewrite Hq; cbn [shift tail].
  - split; [done|]. split.
    { rewrite (Permutation_app_comm (masteredIds session)). cbn.
      by rewrite Permutation_middle. }
    split; [|split; [lia|done]].
    intros ->. rewrite length_app. cbn. lia.
  - split; [done|]. split; [by rewrite splice_insert_perm|].
    split; [done|]. split; [lia|done].
Qed.

Lemma answered_correct (u : Q) (card : Card) (session : LearnSession)
    (rest : list string) :
  unseenIds session = uuid card :: rest →
  retired card rest session (answered u true card session).
Proof.
  intros Hq. unfold retired, answered. cbn. rewrite Hq. done.
Qed.

Lemma handleGrade_world (now : Z) (u : Q) (grade : Z) (w : World)
    (session : LearnSession) (set : StudySet) (card : Card) (cs : Stats) :
  state.getLearnSession (st w) = Some session →
  state.getActiveSet (st w) = Some set →
  findCurrent session set = Some card →
  stats card = Some cs →
  ∃ newStats,
    spacedRep.calculateSM2 now (Some cs) grade = Returned newStats
    ∧ handleGrade now u grade w
      = Returned
          {| st := state.setLearnSession
                     (Some (answered u (spacedRep.GOOD <=? grade) card session))
                     (state.updateCard now (set_uuid set) (uuid card)
                        {| state.upd_stats := Some newStats;
                           state.upd_masteryLevel := None;
                           state.upd_starred := None |} (st w)).1;
             localStorage :=
               (storage.saveLearnSession now
                  (Some (answered u (spacedRep.GOOD <=? grade) card session))
                  (localStorage w)).2 |}.
Proof.
  intros Hs Hset Hcard Hcs. unfold handleGrade.
  rewrite Hs, Hset, Hcard, Hcs.
  destruct (calculateSM2_returns now cs grade) as [r Hr].
  exists r. split; [done|]. by rewrite Hr.
Qed.

Lemma handleMultipleChoiceAnswer_world (now : Z) (u : Q) (isCorrect : bool)
    (w : World) (session : LearnSession) (set : StudySet) (card : Card) :
  state.getLearnSession (st w) = Some session →
  state.getActiveSet (st w) = Some set →
  findCurrent session set = Some card →
  handleMultipleChoiceAnswer now u isCorrect w
  = {| st := state.setLearnSession
               (Some (answered u isCorrect card session))
               (state.updateCard now (set_uuid set) (uuid card)
                  {| state.upd_stats := None;
                     state.upd_masteryLevel :=
                       Some (if isCorrect then masteryLevel card + 1 else 0);
                     state.upd_starred := None |} (st w)).1;
       localStorage :=
         (storage.saveLearnSession now
            (Some (answered u isCorrect card session)) (localStorage w)).2 |}.
Proof.
  intros Hs Hset Hcard. unfold handleMultipleChoiceAnswer.
  by rewrite Hs, Hset, Hcard.
Qed.

End answers_more.

(** X20: a correct answer (Good or Easy in [handleGrade], a right choice in
    [handleMultipleChoiceAnswer]) to the card at the front of the queue takes
    it off the queue and appends it to [masteredIds]; [correctCount] and
    [questionsAnswered] go up by one, and a card queued once is gone from
    the queue. *)
Theorem correct_answer_retires (now : Z) (u : Q) (grade : Z) (w : app.World)
    (session : LearnSession) (set : StudySet) (card : Card)
    (rest : list string) :
  state.getLearnSession (app.st w) = Some session →
  state.getActiveSet (app.st w) = Some set →
  app.findCurrent session set = Some card →
  unseenIds session = uuid card :: rest →
  (spacedRep.GOOD <= grade → is_Some (stats card) →
   ∃ w' s', app.handleGrade now u grade w = Returned w'
            ∧ learnSession (app.st w') = Some s'
            ∧ retired card rest session s')
  ∧ ∃ s', learnSession (app.st (app.handleMultipleChoiceAnswer now u true w))
          = Some s'
          ∧ retired card rest session s'.
Proof.
  intros Hs Hset Hcard Hq.
  pose proof (answered_correct u card session rest Hq) as Hret.
  split.
  - intros Hg Hst.
    destruct (handleGrade_session now u grade w session set card
                Hs Hset Hcard Hst) as (w' & Hw & Hl).
    assert (Hb : (spacedRep.GOOD <=? grade) = true) by by apply Z.leb_le.
    rewrite Hb in Hl. by exists w', (app.answered u true card session).
  - exists (app.answered u true card session). split; [|done].
    by apply handleMultipleChoiceAnswer_session with set.
Qed.

Lemma correct_answer_retires_witness :
  let w := samples.world1 in
  let card := samples.card1 in
  let session := samples.session1 in
  let set := samples.setOf [card; samples.card2; samples.card3] in
  state.getLearnSession (app.st w) = Some session
  ∧ state.getActiveSet (app.st w) = Some set
  ∧ app.findCurrent session set = Some card
  ∧ unseenIds session = uuid card :: ["c2"; "c3"]
  ∧ spacedRep.GOOD <= 4
  ∧ is_Some (stats card)
  ∧ (∃ w' s', app.handleGrade 5000 (1 # 2) 4 w = Returned w'
              ∧ learnSession (app.st w') = Some s'
              ∧ retired card ["c2"; "c3"] session s')
  ∧ ∃ s', learnSession
            (app.st (app.handleMultipleChoiceAnswer 5000 (1 # 2) true w))
          = Some s'
          ∧ retired card ["c2"; "c3"] session s'.
Proof.
  cbv zeta.
  assert (Hs : state.getLearnSession (app.st samples.world1)
               = Some samples.session1) by reflexivity.
  assert (Hset : state.getActiveSet (app.st samples.world1)
                 = Some (samples.setOf
                           [samples.card1; samples.card2; samples.card3]))
    by (vm_compute; reflexivity).
  assert (Hcard : app.findCurrent samples.session1
                    (samples.setOf
                       [samples.card1; samples.card2; samples.card3])
                  = Some samples.card1) by (vm_compute; reflexivity).
  assert (Hq : unseenIds samples.session1 = uuid samples.card1 :: ["c2"; "c3"])
    by reflexivity.
  assert (Hg : spacedRep.GOOD <= 4) by (vm_compute; discriminate).
  assert (Hst : is_Some (stats samples.card1)) by (eexists; reflexivity).
  split; [exact Hs|]. split; [exact Hset|]. split; [exact Hcard|].
  split; [exact Hq|]. split; [exact Hg|]. split; [exact Hst|].
  destruct (correct_answer_retires 5000 (1 # 2) 4 samples.world1
              samples.session1 _ samples.card1 ["c2"; "c3"]
              Hs Hset Hcard Hq) as [HG HM].
  split; [exact (HG Hg Hst)|exact HM].
Defined.

(** X21: an answer to the card at the front of the queue, right or wrong and
    with any draw, keeps the cards of the session: the queue and the mastered
    cards together are the same cards as before, one more question is
    counted, a [correctCount] equal to the number of mastered cards stays
    equal to it, and it never overtakes [questionsAnswered]. The condition
    is needed: called while another card is at the front, a handler takes
    that card off the queue. *)
Theorem answer_keeps_progress (now : Z) (u : Q) (grade : Z) (isCorrect : bool)
    (w : app.World) (session : LearnSession) (set : StudySet) (card : Card)
    (rest : list string) :
  state.getLearnSession (app.st w) = Some session →
  state.getActiveSet (app.st w) = Some set →
  app.findCurrent session set = Some card →
  unseenIds session = uuid card :: rest →
  (is_Some (stats card) →
   ∃ w' s', app.handleGrade now u grade w = Returned w'
            ∧ learnSession (app.st w') = Some s'
            ∧ progressKept session s')
  ∧ ∃ s', learnSession
            (app.st (app.handleMultipleChoiceAnswer now u isCorrect w))
          = Some s'
          ∧ progressKept session s'.
Proof.
  intros Hs Hset Hcard Hq. split.
  - intros Hst.
    destruct (handleGrade_session now u grade w session set card
                Hs Hset Hcard Hst) as (w' & Hw & Hl).
    exists w'. eexists. split; [done|]. split; [done|].
    by apply answered_progress with rest.
  - eexists. split; [by apply handleMultipleChoiceAnswer_session with set|].
    by apply answered_progress with rest.
Qed.

Lemma answer_keeps_progress_witness :
  let w := samples.world1 in
  let card := samples.card1 in
  let session := samples.session1 in
  let set := samples.setOf [card; samples.card2; samples.card3] in
  state.getLearnSession (app.st w) = Some session
  ∧ state.getActiveSet (app.st w) = Some set
  ∧ app.findCurrent session set = Some card
  ∧ unseenIds session = uuid card :: ["c2"; "c3"]
  ∧ is_Some (stats card)
  ∧ (∃ w' s', app.handleGrade 5000 (1 # 2) 2 w = Returned w'
              ∧ learnSession (app.st w') = Some s'
              ∧ progressKept session s')
  ∧ ∃ s', learnSession
            (app.st (app.handleMultipleChoiceAnswer 5000 (1 # 2) false w))
          = Some s'
          ∧ progressKept session s'.
Proof.
  cbv zeta.
  assert (Hs : state.getLearnSession (app.st samples.world1)
               = Some samples.session1) by reflexivity.
  assert (Hset : state.getActiveSet (app.st samples.world1)
                 = Some (samples.setOf
                           [samples.card1; samples.card2; samples.card3]))
    by (vm_compute; reflexivity).
  assert (Hcard : app.findCurrent samples.session1
                    (samples.setOf
                       [samples.card1; samples.card2; samples.card3])
                  = Some samples.card1) by (vm_compute; reflexivity).
  assert (Hq : unseenIds samples.session1 = uuid samples.card1 :: ["c2"; "c3"])
    by reflexivity.
  assert (Hst : is_Some (stats samples.card1)) by (eexists; reflexivity).
  split; [exact Hs|]. split; [exact Hset|]. split; [exact Hcard|].
  split; [exact Hq|]. split; [exact Hst|].
  destruct (answer_keeps_progress 5000 (1 # 2) 2 false samples.world1
              samples.session1 _ samples.card1 ["c2"; "c3"]
              Hs Hset Hcard Hq) as [HG HM].
  split; [exact (HG Hst)|exact HM].
Defined.

(** X22: a handler persists the session it leaves in memory. With room in
    localStorage, a load within 7 days of the answer returns that session,
    stamped with the time of the answer. With the quota used up the handler
    still advances the session in memory, and localStorage keeps what it
    held: the failed save goes unnoticed. *)
Theorem answer_is_persisted (now now' : Z) (u : Q) (isCorrect : bool)
    (w : app.World) (session : LearnSession) (set : StudySet) (card : Card) :
  state.getLearnSession (app.st w) = Some session →
  state.getActiveSet (app.st w) = Some set →
  app.findCurrent session set = Some card →
  let w' := app.handleMultipleChoiceAnswer now u isCorrect w in
  learnSession (app.st w') = Some (app.answered u isCorrect card session)
  ∧ (storage.quotaExceeded (app.localStorage w) = false →
     now' - now <= 7 * 24 * 60 * 60 * 1000 →
     (storage.loadLearnSession now' (app.localStorage w')).1
     = Some (storage.spreadSavedAt
               (app.answered u isCorrect card session) now))
  ∧ (storage.quotaExceeded (app.localStorage w) = true →
     app.localStorage w' = app.localStorage w).
Proof.
  intros Hs Hset Hcard. cbv zeta.
  rewrite (handleMultipleChoiceAnswer_world now u isCorrect w session set card
             Hs Hset Hcard).
  cbn [app.st app.localStorage]. split; [done|]. split.
  - intros Hq Hage. rewrite (saveLearnSession_stores _ _ _ Hq). cbn [snd].
    rewrite (loadLearnSession_recent now'
               (storage.spreadSavedAt (app.answered u isCorrect card session)
                  now)); [done| |done].
    unfold storage.getItem. cbn. apply lookup_insert_eq.
  - intros Hq. by rewrite (saveLearnSession_quota _ _ _ Hq).
Qed.

Lemma answer_is_persisted_witness :
  let w := samples.world1 in
  let card := samples.card1 in
  let session := samples.session1 in
  let set := samples.setOf [card; samples.card2; samples.card3] in
  let w' := app.handleMultipleChoiceAnswer 5000 (1 # 2) true w in
  state.getLearnSession (app.st w) = Some session
  ∧ state.getActiveSet (app.st w) = Some set
  ∧ app.findCurrent session set = Some card
  ∧ storage.quotaExceeded (app.localStorage w) = false
  ∧ 6000 - 5000 <= 7 * 24 * 60 * 60 * 1000
  ∧ learnSession (app.st w')
    = Some (app.answered (1 # 2) true card session)
  ∧ (storage.loadLearnSession 6000 (app.localStorage w')).1
    = Some (storage.spreadSavedAt
              (app.answered (1 # 2) true card session) 5000).
Proof.
  cbv zeta.
  assert (Hs : state.getLearnSession (app.st samples.world1)
               = Some samples.session1) by reflexivity.
  assert (Hset : state.getActiveSet (app.st samples.world1)
                 = Some (samples.setOf
                           [samples.card1; samples.card2; samples.card3]))
    by (vm_compute; reflexivity).
  assert (Hcard : app.findCurrent samples.session1
                    (samples.setOf
                       [samples.card1; samples.card2; samples.card3])
                  = Some samples.card1) by (vm_compute; reflexivity).
  assert (Hq : storage.quotaExceeded (app.localStorage samples.world1) = false)
    by reflexivity.
  assert (Hage : 6000 - 5000 <= 7 * 24 * 60 * 60 * 1000)
    by (vm_compute; discriminate).
  split; [exact Hs|]. split; [exact Hset|]. split; [exact Hcard|].
  split; [exact Hq|]. split; [exact Hage|].
  destruct (answer_is_persisted 5000 6000 (1 # 2) true samples.world1
              samples.session1 _ samples.card1 Hs Hset Hcard)
    as (Hmem & Hload & _).
  split; [exact Hmem|exact (Hload Hq Hage)].
Defined.

Section grading.
Import app.

Lemma findCurrent_Some (session : LearnSession) (set : StudySet) (card : Card) :
  findCurrent session set = Some card →
  currentQuestionId session = Some (uuid card)
  ∧ List.find (fun c => String.eqb (uuid c) (uuid card)) (cards set)
    = Some card.
Proof.
  unfold findCurrent. intros Hf.
  pose proof (find_some _ _ Hf) as [_ Hp].
  apply bool_decide_eq_true in Hp. split; [done|].
  rewrite <- Hf. rewrite <- Hp. clear.
  induction (cards set) as [|c l IH]; cbn; [done|].
  rewrite IH.
  destruct (String.eqb_spec (uuid c) (uuid card)) as [->|Hne].
  - by rewrite bool_decide_eq_true_2.
  - rewrite bool_decide_eq_false_2; [done|]. congruence.
Qed.

Lemma find_findIndex {A} (p : A → bool) (l : list A) (x : A) :
  List.find p l = Some x →
  ∃ i, state.findIndex p l = Some i ∧ l !! i = Some x.
Proof.
  induction l as [|a l IH]; cbn; [done|].
  destruct (p a) eqn:Hp.
  - intros [= <-]. by exists 0%nat.
  - intros Hf. destruct (IH Hf) as (i & -> & Hi). by exists (S i).
Qed.

End grading.

(** X23: [handleGrade] stores the scheduler's result on the card it found.
    For a set registered under its own identifier and a current card with
    stats, the card that [getCard] finds afterwards carries the stats that
    [calculateSM2] returned and is otherwise the card as it was; for a
    current card without stats the handler throws before it changes
    anything. *)
Theorem handleGrade_stores_stats (now : Z) (u : Q) (grade : Z) (w : app.World)
    (session : LearnSession) (set : StudySet) (card : Card) :
  state.getLearnSession (app.st w) = Some session →
  state.getActiveSet (app.st w) = Some set →
  app.findCurrent session set = Some card →
  allSets (app.st w) !! set_uuid set = Some set →
  (stats card = None → app.handleGrade now u grade w = Threw TypeError)
  ∧ (∀ cs, stats card = Some cs →
     ∃ w' newStats c',
       spacedRep.calculateSM2 now (Some cs) grade = Returned newStats
       ∧ app.handleGrade now u grade w = Returned w'
       ∧ state.getCard (app.st w') (set_uuid set) (uuid card) = Some c'
       ∧ stats c' = Some newStats
       ∧ uuid c' = uuid card ∧ term c' = term card
       ∧ definition c' = definition card ∧ starred c' = starred card
       ∧ masteryLevel c' = masteryLevel card).
Proof.
  intros Hs Hset Hcard Hreg. split.
  - intros Hnone. unfold app.handleGrade. by rewrite Hs, Hset, Hcard, Hnone.
  - intros cs Hcs.
    destruct (handleGrade_world now u grade w session set card cs
                Hs Hset Hcard Hcs) as (newStats & Hcalc & Hw).
    destruct (findCurrent_Some _ _ _ Hcard) as [_ Hfind].
    destruct (find_findIndex _ _ _ Hfind) as (i & Hi & Hli).
    destruct (updateCard_found now (set_uuid set) (uuid card)
                {| state.upd_stats := Some newStats;
                   state.upd_masteryLevel := None;
                   state.upd_starred := None |} (app.st w) set i Hreg Hi)
      as (old & Hold & _ & Hupd).
    rewrite Hli in Hold. simplify_eq.
    eexists _, newStats, _. split; [done|]. split; [exact Hw|].
    rewrite Hupd. cbn [fst app.st].
    split.
    { unfold state.getCard, state.setLearnSession, state.putSet.
      cbn [allSets]. rewrite lookup_insert_eq. cbn [cards].
      assert (Hi' : state.findIndex
                      (fun c => String.eqb (uuid c) (uuid old))
                      (<[i := state.spreadCard now old
                                {| state.upd_stats := Some newStats;
                                   state.upd_masteryLevel := None;
                                   state.upd_starred := None |}]> (cards set))
                    = Some i).
      { apply findIndex_insert; [done|]. cbn. apply String.eqb_refl. }
      destruct (findIndex_Some _ _ _ Hi') as (x & Hx & _ & Hfx & _).
      rewrite Hfx. rewrite list_lookup_insert_eq in Hx; [by simplify_eq|].
      by eapply lookup_lt_Some. }
    done.
Qed.

Lemma handleGrade_stores_stats_witness :
  let w := samples.world1 in
  let card := samples.card1 in
  let session := samples.session1 in
  let set := samples.setOf [card; samples.card2; samples.card3] in
  state.getLearnSession (app.st w) = Some session
  ∧ state.getActiveSet (app.st w) = Some set
  ∧ app.findCurrent session set = Some card
  ∧ allSets (app.st w) !! set_uuid set = Some set
  ∧ stats card = Some (samples.statsAt 1000)
  ∧ ∃ w' newStats c',
      spacedRep.calculateSM2 5000 (Some (samples.statsAt 1000)) 3
        = Returned newStats
      ∧ app.handleGrade 5000 (1 # 2) 3 w = Returned w'
      ∧ state.getCard (app.st w') (set_uuid set) (uuid card) = Some c'
      ∧ stats c' = Some newStats
      ∧ uuid c' = uuid card ∧ term c' = term card
      ∧ definition c' = definition card ∧ starred c' = starred card
      ∧ masteryLevel c' = masteryLevel card.
Proof.
  cbv zeta.
  assert (Hs : state.getLearnSession (app.st samples.world1)
               = Some samples.session1) by reflexivity.
  assert (Hset : state.getActiveSet (app.st samples.world1)
                 = Some (samples.setOf
                           [samples.card1; samples.card2; samples.card3]))
    by (vm_compute; reflexivity).
  assert (Hcard : app.findCurrent samples.session1
                    (samples.setOf
                       [samples.card1; samples.card2; samples.card3])
                  = Some samples.card1) by (vm_compute; reflexivity).
  assert (Hreg : allSets (app.st samples.world1)
                   !! set_uuid (samples.setOf
                                  [samples.card1; samples.card2; samples.card3])
                 = Some (samples.setOf
                           [samples.card1; samples.card2; samples.card3]))
    by (vm_compute; reflexivity).
  assert (Hcs : stats samples.card1 = Some (samples.statsAt 1000))
    by reflexivity.
  split; [exact Hs|]. split; [exact Hset|]. split; [exact Hcard|].
  split; [exact Hreg|]. split; [exact Hcs|].
  exact (proj2 (handleGrade_stores_stats 5000 (1 # 2) 3 samples.world1
                  samples.session1 _ samples.card1 Hs Hset Hcard Hreg)
           _ Hcs).
Defined.

(** ** From question to question *)

Section questions.
Import app.

Lemma nextQuestion_no_batch (now : Z) (w : World) :
  nextQuestion now 0 w
  = match state.getLearnSession (st w), state.getActiveSet (st w) with
    | Some session, Some set =>
        match unseenIds session with
        | [] => (handleLearnComplete w, ShownCompletion)
        | first :: _ =>
            ({| st := state.setLearnSession (Some (asking first session))
                        (st w);
                localStorage :=
                  (storage.saveLearnSession now (Some (asking first session))
                     (localStorage w)).2 |},
             ShownQuestion first)
        end
    | _, _ => (w, ShownNothing)
    end.
Proof.
  unfold nextQuestion.
  destruct (state.getLearnSession (st w)) as [session|]; [|done].
  destruct (state.getActiveSet (st w)) as [set|]; [|done].
  change (0 <? 0)%nat with false. by rewrite andb_false_r.
Qed.



Lemma nextQuestion_not_summary (now : Z) (w : World) :
  (nextQuestion now 0 w).2 ≠ ShownSummary.
Proof.
  rewrite nextQuestion_no_batch.
  destruct (state.getLearnSession (st w)) as [session|]; [|done].
  destruct (state.getActiveSet (st w)) as [set|]; [|done].
  by destruct (unseenIds session).
Qed.

Lemma proceed_nextQuestion (now : Z) (w : World) :
  proceed now w = nextQuestion now 0 w.
Proof.
  unfold proceed, handleContinueLearning.
  rewrite (nextQuestion_no_batch now w). unfold nextQuestion.
  destruct (state.getLearnSession (st w)) as [session|] eqn:Hs; [|done].
  destruct (state.getActiveSet (st w)) as [set|] eqn:Hset; [|done].
  change (0 <? 1)%nat with true. rewrite andb_true_r.
  destruct (_ && _).
  - rewrite Hs, Hset.
    replace (0 <? 0)%nat with false by reflexivity.
    rewrite andb_false_r. unfold asking. by destruct (unseenIds session).
  - unfold asking. by destruct (unseenIds session).
Qed.

Lemma getActiveSet_setLearnSession (o : option LearnSession) (s : State) :
  state.getActiveSet (state.setLearnSession o s) = state.getActiveSet s.
Proof. reflexivity. Qed.




End questions.

(** X24: a batch summary is a checkpoint that changes nothing: when
    [nextQuestion] shows one, the state and the storage are as before, and
    continuing from it does what [nextQuestion] would have done had no
    summary been due. *)
Theorem batch_summary_is_checkpoint (now : Z) (batchLength : nat)
    (w : app.World) :
  ((app.nextQuestion now batchLength w).2 = app.ShownSummary →
   (app.nextQuestion now batchLength w).1 = w
   ∧ app.handleContinueLearning now (app.nextQuestion now batchLength w).1
     = app.nextQuestion now 0 w)
  ∧ app.proceed now w = app.nextQuestion now 0 w
  ∧ (app.proceed now w).2 ≠ app.ShownSummary.
Proof.
  split; [|split].
  - unfold app.nextQuestion at 1 2 3.
    destruct (state.getLearnSession (app.st w)) as [session|]; [|done].
    destruct (state.getActiveSet (app.st w)) as [set|]; [|done].
    destruct (_ && _); [done|]. by destruct (unseenIds session).
  - apply proceed_nextQuestion.
  - rewrite proceed_nextQuestion. apply nextQuestion_not_summary.
Qed.

Lemma batch_summary_is_checkpoint_witness :
  let s10 := {| version := 1; setId := "s1"; unseenIds := ["c2"; "c3"];
                masteredIds := ["c1"]; currentQuestionId := Some "c1";
                questionsAnswered := 10; correctCount := 1; mode := "all";
                batchHistory := []; startedAt := 1000; savedAt := 1000 |} in
  let w := {| app.st := samples.stateOf
                          [samples.card1; samples.card2; samples.card3]
                          (Some s10);
              app.localStorage := samples.emptyStorage |} in
  (app.nextQuestion 5000 3 w).2 = app.ShownSummary
  ∧ (app.nextQuestion 5000 3 w).1 = w
  ∧ app.handleContinueLearning 5000 (app.nextQuestion 5000 3 w).1
    = app.nextQuestion 5000 0 w.
Proof.
  cbv zeta.
  match goal with |- (app.nextQuestion 5000 3 ?x).2 = _ ∧ _ => set (w := x) end.
  assert (H : (app.nextQuestion 5000 3 w).2 = app.ShownSummary)
    by (vm_compute; reflexivity).
  split; [exact H|].
  exact (proj1 (batch_summary_is_checkpoint 5000 3 w) H).
Defined.



(** ** Leaving and resuming *)

(** X26: leaving an unfinished session and coming back to its set within 7
    days resumes it where it stood, whatever mode is asked for and whether or
    not a resume is requested: the session in memory is the one that was
    left, stamped with the time of leaving, and its set is the active one. *)
Theorem exit_then_resume (t t' : Z) (us : nat → Q) (resume : bool)
    (md : string) (w : app.World) (session : LearnSession) (set : StudySet) :
  learnSession (app.st w) = Some session →
  unseenIds session ≠ [] →
  allSets (app.st w) !! setId session = Some set →
  storage.quotaExceeded (app.localStorage w) = false →
  t' - t <= 7 * 24 * 60 * 60 * 1000 →
  let w1 := app.handleExitLearn t w in
  let w2 := app.navigateToLearnMode t' us (setId session) resume md w1 in
  learnSession (app.st w1) = Some session
  ∧ learnSession (app.st w2) = Some (storage.spreadSavedAt session t)
  ∧ activeSetId (app.st w2) = Some (setId session)
  ∧ unseenIds (storage.spreadSavedAt session t) = unseenIds session
  ∧ masteredIds (storage.spreadSavedAt session t) = masteredIds session.
Proof.
  intros Hs Hne Hset Hq Hage. cbv zeta.
  assert (Hexit : app.handleExitLearn t w
                  = {| app.st := app.st w;
                       app.localStorage :=
                         (storage.saveLearnSession t (Some session)
                            (app.localStorage w)).2 |}).
  { unfold app.handleExitLearn, state.getLearnSession. rewrite Hs.
    destruct (unseenIds session); [done|]. done. }
  rewrite Hexit. cbn [app.st]. split; [done|].
  unfold app.navigateToLearnMode. cbn [app.st app.localStorage].
  unfold state.getSet, state.setActiveSetId. cbn [allSets]. rewrite Hset.
  rewrite (saveLearnSession_stores _ _ _ Hq). cbn [snd].
  rewrite (loadLearnSession_recent t' (storage.spreadSavedAt session t));
    [| unfold storage.getItem; cbn; apply lookup_insert_eq | done].
  cbn [storage.spreadSavedAt setId unseenIds].
  rewrite String.eqb_refl.
  destruct (unseenIds session) as [|x l] eqn:Hu; [done|]. cbn [length].
  cbn [andb Nat.ltb Nat.leb]. done.
Qed.

Lemma exit_then_resume_witness :
  let w := samples.world1 in
  let session := samples.session1 in
  let set := samples.setOf [samples.card1; samples.card2; samples.card3] in
  let us := fun _ : nat => (1 # 2)%Q in
  let w1 := app.handleExitLearn 5000 w in
  let w2 := app.navigateToLearnMode 6000 us (setId session) false "starred" w1 in
  learnSession (app.st w) = Some session
  ∧ unseenIds session ≠ []
  ∧ allSets (app.st w) !! setId session = Some set
  ∧ storage.quotaExceeded (app.localStorage w) = false
  ∧ 6000 - 5000 <= 7 * 24 * 60 * 60 * 1000
  ∧ learnSession (app.st w1) = Some session
  ∧ learnSession (app.st w2) = Some (storage.spreadSavedAt session 5000)
  ∧ activeSetId (app.st w2) = Some (setId session)
  ∧ unseenIds (storage.spreadSavedAt session 5000) = unseenIds session
  ∧ masteredIds (storage.spreadSavedAt session 5000) = masteredIds session.
Proof.
  cbv zeta.
  assert (Hs : learnSession (app.st samples.world1) = Some samples.session1)
    by reflexivity.
  assert (Hne : unseenIds samples.session1 ≠ []) by discriminate.
  assert (Hset : allSets (app.st samples.world1) !! setId samples.session1
                 = Some (samples.setOf
                           [samples.card1; samples.card2; samples.card3]))
    by (vm_compute; reflexivity).
  assert (Hq : storage.quotaExceeded (app.localStorage samples.world1) = false)
    by reflexivity.
  assert (Hage : 6000 - 5000 <= 7 * 24 * 60 * 60 * 1000)
    by (vm_compute; discriminate).
  split; [exact Hs|]. split; [exact Hne|]. split; [exact Hset|].
  split; [exact Hq|]. split; [exact Hage|].
  exact (exit_then_resume 5000 6000 _ false "starred" samples.world1
           samples.session1 _ Hs Hne Hset Hq Hage).
Defined.

(** X27: a persisted session older than 7 days does not come back. Entering
    learn mode without a resume then starts from [initializeNewSession]: its
    session is installed and saved, or, when the mode has fewer than two
    cards, the session in memory stays as it was and nothing is persisted. *)
Theorem expired_session_starts_fresh (t' : Z) (us : nat → Q) (sid md : string)
    (w : app.World) (old : LearnSession) (set : StudySet) :
  storage.getItem storage.LEARN_SESSION (app.localStorage w)
    = Some (storage.JSON_stringify old) →
  t' - savedAt old > 7 * 24 * 60 * 60 * 1000 →
  allSets (app.st w) !! sid = Some set →
  storage.quotaExceeded (app.localStorage w) = false →
  let w2 := app.navigateToLearnMode t' us sid false md w in
  match app.initializeNewSession t' us set md with
  | Some fresh =>
      learnSession (app.st w2) = Some fresh
      ∧ (storage.loadLearnSession t' (app.localStorage w2)).1
        = Some (storage.spreadSavedAt fresh t')
  | None =>
      learnSession (app.st w2) = learnSession (app.st w)
      ∧ storage.getItem storage.LEARN_SESSION (app.localStorage w2) = None
  end.
Proof.
  intros Hget Hold Hset Hq. cbv zeta.
  unfold app.navigateToLearnMode, state.getSet, state.setActiveSetId.
  cbn [allSets]. rewrite Hset.
  rewrite (loadLearnSession_stale t' old _ Hget Hold).
  destruct (app.initializeNewSession t' us set md) as [fresh|].
  - cbn [app.st app.localStorage]. split; [done|].
    rewrite saveLearnSession_stores by done. cbn [snd].
    rewrite (loadLearnSession_recent t' (storage.spreadSavedAt fresh t'));
      [done| |cbn; lia].
    unfold storage.getItem. cbn. apply lookup_insert_eq.
  - cbn [app.st app.localStorage]. split; [done|]. apply getItem_removeItem.
Qed.

Lemma expired_session_starts_fresh_witness :
  let ls := (storage.saveLearnSession 1000 (Some samples.session1)
               samples.emptyStorage).2 in
  let w := {| app.st := samples.stateOf
                          [samples.card1; samples.card2; samples.card3] None;
              app.localStorage := ls |} in
  let old := storage.spreadSavedAt samples.session1 1000 in
  let set := samples.setOf [samples.card1; samples.card2; samples.card3] in
  let us := fun _ : nat => (1 # 2)%Q in
  let t' := 1000 + 8 * samples.day in
  let w2 := app.navigateToLearnMode t' us "s1" false "all" w in
  storage.getItem storage.LEARN_SESSION (app.localStorage w)
    = Some (storage.JSON_stringify old)
  ∧ t' - savedAt old > 7 * 24 * 60 * 60 * 1000
  ∧ allSets (app.st w) !! "s1" = Some set
  ∧ storage.quotaExceeded (app.localStorage w) = false
  ∧ match app.initializeNewSession t' us set "all" with
    | Some fresh =>
        learnSession (app.st w2) = Some fresh
        ∧ (storage.loadLearnSession t' (app.localStorage w2)).1
          = Some (storage.spreadSavedAt fresh t')
    | None =>
        learnSession (app.st w2) = learnSession (app.st w)
        ∧ storage.getItem storage.LEARN_SESSION (app.localStorage w2) = None
    end.
Proof.
  cbv zeta.
  set (w := {| app.st := samples.stateOf
                           [samples.card1; samples.card2; samples.card3] None;
               app.localStorage :=
                 (storage.saveLearnSession 1000 (Some samples.session1)
                    samples.emptyStorage).2 |}).
  assert (Hget : storage.getItem storage.LEARN_SESSION (app.localStorage w)
                 = Some (storage.JSON_stringify
                           (storage.spreadSavedAt samples.session1 1000)))
    by (vm_compute; reflexivity).
  assert (Hold : 1000 + 8 * samples.day
                 - savedAt (storage.spreadSavedAt samples.session1 1000)
                 > 7 * 24 * 60 * 60 * 1000) by (vm_compute; reflexivity).
  assert (Hset : allSets (app.st w) !! "s1"
                 = Some (samples.setOf
                           [samples.card1; samples.card2; samples.card3]))
    by (vm_compute; reflexivity).
  assert (Hq : storage.quotaExceeded (app.localStorage w) = false)
    by reflexivity.
  split; [exact Hget|]. split; [exact Hold|]. split; [exact Hset|].
  split; [exact Hq|].
  exact (expired_session_starts_fresh _ (fun _ => (1 # 2)%Q) "s1" "all" w
           _ _ Hget Hold Hset Hq).
Defined.

(** ** The two due filters *)

(** An id that is no key of [allSets]: the empty list, except for a property
    name of [Object.prototype], where the call throws. *)
Lemma getDueCards_unknown_set (now : Z) (st : State) (sid : string) :
  allSets st !! sid = None →
  state.getDueCards now st sid
  = if bool_decide (sid ∈ state.Object_prototype) then Threw TypeError
    else Returned [].
Proof. intros Hnone. unfold state.getDueCards. by rewrite Hnone. Qed.

Lemma getDueCards_inherited_key :
  let st := samples.stateOf [samples.card1; samples.card2] None in
  state.getDueCards 5000 st "constructor" = Threw TypeError
  ∧ state.getDueCards 5000 st "s2" = Returned [].
Proof. split; vm_compute; reflexivity. Qed.

(** X28: on a set of [allSets] whose cards all carry stats, and from a clock
    reading that is not negative, [getDueCards(setId)] of state.js returns
    the cards that [getDueCards(cards)] of spacedRep.js returns for the set's
    cards, in the same order. *)
Theorem getDueCards_agree (now : Z) (st : State) (sid : string)
    (set : StudySet) :
  0 <= now →
  allSets st !! sid = Some set →
  Forall (fun c => is_Some (stats c)) (cards set) →
  state.getDueCards now st sid
  = Returned (spacedRep.getDueCards now (cards set)).
Proof.
  intros Hnow Hset Hall.
  rewrite (state_getDueCards_with_stats now st sid set Hset Hall).
  f_equal. unfold spacedRep.getDueCards.
  induction Hall as [|c l [s Hs] _ IH]; [done|].
  assert (Hc : spacedRep.isCardDue now c = (dueAt s <=? now)).
  { unfold spacedRep.isCardDue. rewrite Hs.
    destruct (Z.eqb_spec (dueAt s) 0) as [E|E]; [|done].
    rewrite E. symmetry. apply Z.leb_le. lia. }
  cbn [List.filter]. by rewrite Hs, IH, Hc.
Qed.

Lemma getDueCards_agree_witness :
  let st := samples.stateOf [samples.card1; samples.card2] None in
  let set := samples.setOf [samples.card1; samples.card2] in
  0 <= 5000
  ∧ allSets st !! "s1" = Some set
  ∧ Forall (fun c => is_Some (stats c)) (cards set)
  ∧ state.getDueCards 5000 st "s1"
    = Returned (spacedRep.getDueCards 5000 (cards set)).
Proof.
  cbv zeta.
  assert (H0 : 0 <= 5000) by lia.
  assert (Hset : allSets (samples.stateOf [samples.card1; samples.card2] None)
                   !! "s1"
                 = Some (samples.setOf [samples.card1; samples.card2]))
    by (vm_compute; reflexivity).
  assert (Hall : Forall (fun c => is_Some (stats c))
                   (cards (samples.setOf [samples.card1; samples.card2]))).
  { repeat constructor; eexists; reflexivity. }
  split; [exact H0|]. split; [exact Hset|]. split; [exact Hall|].
  exact (getDueCards_agree 5000 _ "s1" _ H0 Hset Hall).
Defined.
